(** * collision-benchmark: the Gazebo adaptor behind the PhysicsWorld interface

    A shallow embedding of [collision_benchmark/PhysicsWorld.hh] (the
    interface), of [collision_benchmark/GazeboPhysicsWorld.cc] (the adaptor
    that wraps a [gazebo::physics::World]) and of the static tests of
    [test/Static_TEST.cc].

    The Gazebo world is owned by the simulator: the adaptor only holds a
    pointer to it and calls its methods.  The world is therefore kept abstract
    (class [GazeboWorld]); the adaptor's methods run in a state-and-failure
    monad over a process image that holds the simulator's worlds, the calls
    they received, the two output streams and the function-static flag of
    [Update]. *)

From Stdlib Require Import List String ZArith QArith Bool Lia.
Import ListNotations.

Set Implicit Arguments.
Open Scope string_scope.
Open Scope list_scope.

(** ** PhysicsWorld.hh: result codes of the interface *)

(** [typedef enum _OpResult {FAILED, NOT_SUPPORTED, SUCCESS} OpResult;] *)
Inductive OpResult : Type := FAILED | NOT_SUPPORTED | SUCCESS.

(** [typedef enum _RefResult {ERROR, COPIED, REFERENCED} RefResult;] *)
Inductive RefResult : Type := ERROR | COPIED | REFERENCED.

(** ** Objects, pointers and vectors *)

(** The identity (address) of an object owned by the simulator. *)
Definition addr := positive.

(** A smart pointer to a world, [boost::shared_ptr<World>] or
    [std::shared_ptr<World>], seen as the address it holds; [None] is the null
    pointer. *)
Definition WorldPtr := option addr.

(** [ModelID] and [ModelPartID] of the Gazebo adaptor are [std::string]: the
    helper compares them with the names of Gazebo models. *)
Definition ModelID := string.
Definition ModelPartID := string.

(** [std::vector::push_back]. *)
Definition push_back {A : Type} (v : list A) (x : A) : list A := v ++ [x].

(** The conversion of an [int] argument to a parameter of type
    [unsigned int] (32 bits): the value modulo 2^32, so that -1 becomes
    4294967295. *)
Definition to_unsigned (i : Z) : Z := (i mod 2 ^ 32)%Z.
Arguments to_unsigned : simpl never.

(** How a call ends when it does not return: a failed [GZ_ASSERT] / [assert]
    (with the message or the asserted expression), or the dereference of a
    null or dangling pointer. *)
Inductive Failure : Type :=
| AssertionFailed (msg : string)
| NullDereference.

Inductive Result (A : Type) : Type :=
| Returns (a : A)
| Aborts (f : Failure).
Arguments Aborts {A} f.

Section Adaptor.

(** The types the interface templates are instantiated with come from Gazebo
    and ignition-math ([Vector3d], [JointWrench], [double], the world state);
    the adaptor only moves their values around. *)
Variables Vector3d JointWrench double WorldState : Type.

(** ** The simulator's contact records *)

(** A Gazebo model or link, as far as the adaptor reads it: its name. *)
Record Entity : Type := { GetName : string }.

(** [gazebo::physics::Collision]: its model and its link, either of which the
    helper asserts to be set. *)
Record Collision : Type := {
  GetModel : option Entity;
  GetLink : option Entity }.

(** [gazebo::physics::Contact].  [count] is an [int]; the four arrays have a
    fixed capacity in Gazebo and are read at the indices below [count]
    only. *)
Record physics_Contact : Type := {
  collision1 : Collision;
  collision2 : Collision;
  count : Z;
  positions : nat -> Vector3d;
  normals : nat -> Vector3d;
  wrench : nat -> JointWrench;
  depths : nat -> double }.

(** An element of the contact manager's [std::vector<Contact*>]: a pointer to
    a record the simulator owns, given by its address and the record stored
    there. *)
Record ContactRef : Type := {
  address : addr;
  target : physics_Contact }.

(** [gazebo::physics::ContactManager], read through [GetContacts()]. *)
Record ContactManager : Type := { GetContacts : list ContactRef }.

(** [gazebo::physics::PhysicsEngine], read through [GetContactManager()],
    which may be null. *)
Record PhysicsEngine : Type := { GetContactManager : option ContactManager }.

(** ** ContactInfo.hh: the comparison structs *)

(** Modelled from the spec: [collision_benchmark::Contact] of ContactInfo.hh,
    which is not among the sources; one of the "thin comparison structs" the
    fields are copied into, with the four members the constructor call in
    [GetContactInfoHelper] passes. *)
Record Contact : Type := {
  position : Vector3d;
  normal : Vector3d;
  contact_wrench : JointWrench;
  depth : double }.

(** Modelled from the spec: [collision_benchmark::ContactInfo] of
    ContactInfo.hh, which is not among the sources; the constructor takes the
    two model names and the two link names and starts with no contacts. *)
Record ContactInfo : Type := {
  model1 : ModelID;
  modelPart1 : ModelPartID;
  model2 : ModelID;
  modelPart2 : ModelPartID;
  contacts : list Contact }.

Definition new_ContactInfo (_model1 : ModelID) (_modelPart1 : ModelPartID)
    (_model2 : ModelID) (_modelPart2 : ModelPartID) : ContactInfo :=
  {| model1 := _model1; modelPart1 := _modelPart1;
     model2 := _model2; modelPart2 := _modelPart2; contacts := [] |}.

Definition contacts_push_back (cInfo : ContactInfo) (c : Contact) : ContactInfo :=
  {| model1 := model1 cInfo; modelPart1 := modelPart1 cInfo;
     model2 := model2 cInfo; modelPart2 := modelPart2 cInfo;
     contacts := push_back (contacts cInfo) c |}.

(** ** The Gazebo world as the adaptor sees it *)

(** The calls of the adaptor that may change a world. *)
Inductive WorldCall : Type :=
| Stop                                   (* world->Stop() *)
| Run (iterations : Z)                   (* world->Run(iterations) *)
| World_SetPaused (flag : bool)          (* world->SetPaused(flag) *)
| Step (steps : Z)                       (* world->Step(steps) *)
| SetEnforceContacts (flag : bool)       (* ...->GetContactManager()->SetEnforceContacts(flag) *)
| Apply_WorldState (state : WorldState). (* collision_benchmark::SetWorldState(world, state) *)

(** A world implementation: what its [const] accessors return and how it
    reacts to each call.  Gazebo and the helper [SetWorldState] of
    GazeboWorldState.hh decide this, not the adaptor. *)
Class GazeboWorld (W : Type) : Type := {
  Name : W -> string;
  World_IsPaused : W -> bool;
  PhysicsEnabled : W -> bool;
  Physics : W -> option PhysicsEngine;
  State_of : W -> WorldState;            (* gazebo::physics::WorldState s(world) *)
  perform : WorldCall -> W -> W }.

Context {W : Type} {GW : GazeboWorld W}.

(** ** The process image and the monad of the adaptor's methods *)

Record Process : Type := {
  worlds : addr -> option W;             (* the worlds the simulator owns *)
  history : list (addr * WorldCall);     (* the calls they received, oldest first *)
  cout : list string;
  cerr : list string;
  printOnce : bool }.                    (* [static bool printOnce] of Update *)

Definition M (A : Type) : Type := Process -> Result (A * Process).

Definition mret {A : Type} (a : A) : M A := fun p => Returns (a, p).

Definition mbind {A B : Type} (m : M A) (k : A -> M B) : M B :=
  fun p => match m p with
           | Returns (a, p') => k a p'
           | Aborts f => Aborts f
           end.

Definition abort {A : Type} (f : Failure) : M A := fun _ => Aborts f.

Declare Scope adaptor_scope.
Delimit Scope adaptor_scope with adaptor.
Notation "x <- m ;; k" := (mbind m (fun x => k))
  (at level 61, m at next level, right associativity) : adaptor_scope.
Notation "m ;; k" := (mbind m (fun _ => k))
  (at level 61, right associativity) : adaptor_scope.
Local Open Scope adaptor_scope.

(** [world->...]: the object a world pointer points to; a null pointer, or
    one that points to no world of the simulator, cannot be followed. *)
Definition follow (world : WorldPtr) : M (addr * W) :=
  fun p => match world with
           | None => Aborts NullDereference
           | Some a => match worlds p a with
                       | None => Aborts NullDereference
                       | Some w => Returns ((a, w), p)
                       end
           end.

(** A [const] accessor of the world. *)
Definition read {X : Type} (world : WorldPtr) (accessor : W -> X) : M X :=
  aw <- follow world ;; mret (accessor (snd aw)).

Definition store (a : addr) (w : W) (ws : addr -> option W) : addr -> option W :=
  fun a' => if Pos.eqb a' a then Some w else ws a'.

(** A call that may change the world: the world reacts, the simulator
    records the call. *)
Definition invoke (world : WorldPtr) (c : WorldCall) : M unit :=
  aw <- follow world ;;
  fun p => Returns (tt, {| worlds := store (fst aw) (perform c (snd aw)) (worlds p);
                           history := push_back (history p) (fst aw, c);
                           cout := cout p; cerr := cerr p;
                           printOnce := printOnce p |}).

Definition print_cout (msg : string) : M unit :=
  fun p => Returns (tt, {| worlds := worlds p; history := history p;
                           cout := push_back (cout p) msg; cerr := cerr p;
                           printOnce := printOnce p |}).

Definition print_cerr (msg : string) : M unit :=
  fun p => Returns (tt, {| worlds := worlds p; history := history p;
                           cout := cout p; cerr := push_back (cerr p) msg;
                           printOnce := printOnce p |}).

Definition get_printOnce : M bool := fun p => Returns (printOnce p, p).

Definition set_printOnce (b : bool) : M unit :=
  fun p => Returns (tt, {| worlds := worlds p; history := history p;
                           cout := cout p; cerr := cerr p; printOnce := b |}).

(** [GZ_ASSERT(_expr, _msg)] and [assert(_expr)] on a condition, in a build
    with assertions: CMakeLists.txt defines DEBUG for debug builds and never
    defines NDEBUG.  (With NDEBUG the assertions vanish, and the calls that
    fail on one here go on to the pointer the assertion guards.) *)
Definition GZ_ASSERT (_expr : bool) (_msg : string) : M unit :=
  if _expr then mret tt else abort (AssertionFailed _msg).

(** [GZ_ASSERT(ptr, _msg)] on a pointer that is used afterwards. *)
Definition GZ_ASSERT_set {A : Type} (ptr : option A) (_msg : string) : M A :=
  match ptr with
  | Some x => mret x
  | None => abort (AssertionFailed _msg)
  end.

(** [ptr->...] without a check. *)
Definition arrow {A : Type} (ptr : option A) : M A :=
  match ptr with
  | Some x => mret x
  | None => abort NullDereference
  end.

(** ** GazeboPhysicsWorld.cc *)

(** The data members of the adaptor that the methods below use.  The build
    defines CONTACTS_ENFORCABLE (CMakeLists.txt), so the transport node and
    the contacts subscriber of the other branch are not used. *)
Record GazeboPhysicsWorld : Type := {
  world : WorldPtr;                      (* gazebo::physics::WorldPtr world *)
  enforceContactComputation : bool;
  paused : bool }.

(** The constructor: [paused(false)], and no world yet. *)
Definition new_GazeboPhysicsWorld (_enforceContactComputation : bool) : GazeboPhysicsWorld :=
  {| world := None;
     enforceContactComputation := _enforceContactComputation;
     paused := false |}.

(** The text [Update] prints once when it finds the world running. *)
Definition not_paused_warning : string :=
  "DEBUG WARNING: The Gazebo world is not paused. " ++
  "In GazeboPhysicsWorld::Update(), we operate it in " ++
  "paused mode and rely on manually doint the updates " ++
  "instead of letting the gazebo world update " ++
  "itself continuously.".

(** [GetWorldState]: [gazebo::physics::WorldState s(world); return s;] *)
Definition GetWorldState (self : GazeboPhysicsWorld) : M WorldState :=
  read (world self) State_of.

(** [operator-] of [gazebo::physics::WorldState]. *)
Variable WorldState_minus : WorldState -> WorldState -> WorldState.

(** [GetWorldStateDiff]: [diffState = other - GetWorldState()]. *)
Definition GetWorldStateDiff (other : WorldState) (self : GazeboPhysicsWorld) : M WorldState :=
  current <- GetWorldState self ;;
  let diffState := WorldState_minus other current in
  mret diffState.

(** The build flag DEBUG (set for debug builds in CMakeLists.txt) and
    [GazeboStateCompare::Equal] with the default tolerances, told whether
    [CheckDynamics] was switched off. *)
Variable DEBUG : bool.
Variable GazeboStateCompare_Equal : WorldState -> WorldState -> bool -> bool.

(** [SetWorldState]: the helper of GazeboWorldState.hh is called on the
    world whatever [isDiff] is, and SUCCESS is returned. *)
Definition SetWorldState (state : WorldState) (isDiff : bool) (self : GazeboPhysicsWorld)
  : M OpResult :=
  invoke (world self) (Apply_WorldState state) ;;
  (if DEBUG then
     _currentState <- read (world self) State_of ;;
     enabled <- read (world self) PhysicsEnabled ;;
     if negb (GazeboStateCompare_Equal _currentState state (negb enabled))
     then print_cerr "Target state was not set as supposed to!!"
     else mret tt
   else mret tt) ;;
  mret SUCCESS.

(** [PostWorldLoaded], with NEW_WORLDRUN_SOLUTION defined in the file. *)
Definition PostWorldLoaded (self : GazeboPhysicsWorld) : M unit :=
  GZ_ASSERT (match world self with Some _ => true | None => false end)
            "World is null, must have been loaded!" ;;
  invoke (world self) Stop ;;
  invoke (world self) (World_SetPaused true) ;;
  invoke (world self) (Run 0).

(** [IsPaused] and [SetPaused], with NEW_WORLDRUN_SOLUTION: the flag of the
    adaptor. *)
Definition IsPaused (self : GazeboPhysicsWorld) : M bool := mret (paused self).

Definition SetPaused (flag : bool) (self : GazeboPhysicsWorld) : M GazeboPhysicsWorld :=
  mret {| world := world self;
          enforceContactComputation := enforceContactComputation self;
          paused := flag |}.

(** [Update(steps, force)], with NEW_WORLDRUN_SOLUTION.  [steps] is an
    [int] and [World::Step] takes an [unsigned int]: the argument is
    converted at the call. *)
Definition Update (steps : Z) (force : bool) (self : GazeboPhysicsWorld) : M unit :=
  isPaused <- IsPaused self ;;
  if negb force && isPaused then mret tt
  else
    worldPaused <- read (world self) World_IsPaused ;;
    (if negb worldPaused then
       once <- get_printOnce ;;
       (if once then print_cout not_paused_warning ;; set_printOnce false
        else mret tt) ;;
       invoke (world self) (World_SetPaused true)
     else mret tt) ;;
    invoke (world self) (Step (to_unsigned steps)).

(** [IsAdaptor]. *)
Definition IsAdaptor (self : GazeboPhysicsWorld) : bool := true.

(** [SetEnforceContactsComputation], branch CONTACTS_ENFORCABLE. *)
Definition SetEnforceContactsComputation (flag : bool) (self : GazeboPhysicsWorld)
  : M GazeboPhysicsWorld :=
  let self' := {| world := world self;
                  enforceContactComputation := flag;
                  paused := paused self |} in
  engine <- read (world self') Physics ;;
  GZ_ASSERT (match engine with
             | Some e => match GetContactManager e with Some _ => true | None => false end
             | None => false
             end)
            "world->Physics() && world->Physics()->GetContactManager()" ;;
  invoke (world self') (SetEnforceContacts flag) ;;
  mret self'.

(** [to_boost_ptr] and [to_std_ptr] of boost_std_conversion.hh, which is not
    among the sources: they turn one kind of shared pointer into the
    other. *)
Variables to_boost_ptr to_std_ptr : WorldPtr -> WorldPtr.

(** [SetWorld]. *)
Definition SetWorld (_world : WorldPtr) (self : GazeboPhysicsWorld)
  : M (RefResult * GazeboPhysicsWorld) :=
  let self1 := {| world := to_boost_ptr _world;
                  enforceContactComputation := enforceContactComputation self;
                  paused := paused self |} in
  self2 <- SetEnforceContactsComputation (enforceContactComputation self1) self1 ;;
  PostWorldLoaded self2 ;;
  mret (REFERENCED, self2).

(** [GetWorld]. *)
Definition GetWorld (self : GazeboPhysicsWorld) : M WorldPtr :=
  mret (to_std_ptr (world self)).

(** *** Contacts *)

(** The test both helpers make on the names of a record's two models: [true]
    when the record is skipped ([continue]).  [m1] and [m2] are the optional
    pointer arguments of the helpers. *)
Definition skipped (m1 m2 : option ModelID) (m1Name m2Name : string) : bool :=
  match m1 with
  | Some m1 =>
      match m2 with
      | Some m2 =>
          (* m1Name and m2Name do not correspond to m1 and m2 *)
          (negb (m1 =? m1Name) || negb (m2 =? m2Name)) &&
          (negb (m1 =? m2Name) || negb (m2 =? m1Name))
      | None =>
          (* m1 has to be m1Name or m2Name to continue *)
          negb (m1 =? m1Name) && negb (m1 =? m2Name)
      end
  | None => false
  end.

(** [for (int i=0; i < c->count; ++i) cInfo->contacts.push_back(Contact(...))],
    from index [i] on, with [todo] iterations left. *)
Fixpoint copy_points (c : physics_Contact) (i todo : nat) (cInfo : ContactInfo)
  : ContactInfo :=
  match todo with
  | O => cInfo
  | S todo' =>
      copy_points c (S i) todo'
        (contacts_push_back cInfo
           {| position := positions c i; normal := normals c i;
              contact_wrench := wrench c i; depth := depths c i |})
  end.

Definition consistency_message (worldName m1Name m2Name : string) : string :=
  "CONSISTENCY GazeboPhysicsWorld: If there are no contacts, " ++
  "there should be no collision!! World: " ++ worldName ++
  " Models: " ++ m1Name ++ ", " ++ m2Name.

(** The loop of [GetContactInfoHelper] over the contact manager's vector
    (its elements from the iterator on are [records]), with the result vector
    [ret] built so far. *)
Fixpoint GetContactInfoHelper_loop (world : WorldPtr) (m1 m2 : option ModelID)
    (records : list ContactRef) (ret : list ContactInfo) : M (list ContactInfo) :=
  match records with
  | [] => mret ret
  | it :: rest =>
      let c := target it in
      model1 <- GZ_ASSERT_set (GetModel (collision1 c)) "Model of collision1 must be set" ;;
      link1 <- GZ_ASSERT_set (GetLink (collision1 c)) "Link of collision1 must be set" ;;
      model2 <- GZ_ASSERT_set (GetModel (collision2 c)) "Model of collision2 must be set" ;;
      link2 <- GZ_ASSERT_set (GetLink (collision2 c)) "Link of collision2 must be set" ;;
      let m1Name := GetName model1 in
      let m2Name := GetName model2 in
      if skipped m1 m2 m1Name m2Name
      then GetContactInfoHelper_loop world m1 m2 rest ret
      else
        let cInfo :=
          copy_points c 0 (Z.to_nat (count c))
            (new_ContactInfo m1Name (GetName link1) m2Name (GetName link2)) in
        match contacts cInfo with
        | [] =>
            worldName <- read world Name ;;
            print_cerr (consistency_message worldName m1Name m2Name) ;;
            GetContactInfoHelper_loop world m1 m2 rest ret
        | _ :: _ =>
            GetContactInfoHelper_loop world m1 m2 rest (push_back ret cInfo)
        end
  end.

(** [GetContactInfoHelper(world, m1, m2)]. *)
Definition GetContactInfoHelper (world : WorldPtr) (m1 m2 : option ModelID)
  : M (list ContactInfo) :=
  engine <- read world Physics ;;
  physics <- arrow engine ;;
  contactManager <- GZ_ASSERT_set (GetContactManager physics)
                      "Contact manager has to be set" ;;
  GetContactInfoHelper_loop world m1 m2 (GetContacts contactManager) [].

(** The two overloads of [GazeboPhysicsWorld::GetContactInfo]. *)
Definition GetContactInfo (self : GazeboPhysicsWorld) : M (list ContactInfo) :=
  GetContactInfoHelper (world self) None None.

Definition GetContactInfo_between (m1 m2 : ModelID) (self : GazeboPhysicsWorld)
  : M (list ContactInfo) :=
  GetContactInfoHelper (world self) (Some m1) (Some m2).

(** *** Native contacts *)

(** The simulator's memory, whatever it is made of. *)
Variable Heap : Type.

(** [std::shared_ptr<gazebo::physics::Contact>] built from a raw pointer and
    a deleter: the pointer it holds and what it runs on it when the last
    owner lets go. *)
Record NativeContactPtr : Type := {
  get : addr;
  deleter : addr -> Heap -> Heap }.

(** The function template [null_deleter]: it takes the pointer and has an
    empty body. *)
Definition null_deleter (_ : addr) (h : Heap) : Heap := h.

(** The end of the life of a shared pointer that is the only owner of its
    control block: the deleter runs on the held pointer. *)
Definition release (sp : NativeContactPtr) (h : Heap) : Heap :=
  deleter sp (get sp) h.

Definition release_all (sps : list NativeContactPtr) (h : Heap) : Heap :=
  fold_left (fun h' sp => release sp h') sps h.

(** The loop of [GetNativeContactsHelper]. *)
Fixpoint GetNativeContactsHelper_loop (m1 m2 : option ModelID)
    (records : list ContactRef) (ret : list NativeContactPtr)
  : M (list NativeContactPtr) :=
  match records with
  | [] => mret ret
  | it :: rest =>
      let c := target it in
      model1 <- GZ_ASSERT_set (GetModel (collision1 c)) "Model of collision1 must be set" ;;
      GZ_ASSERT_set (GetLink (collision1 c)) "Link of collision1 must be set" ;;
      model2 <- GZ_ASSERT_set (GetModel (collision2 c)) "Model of collision2 must be set" ;;
      GZ_ASSERT_set (GetLink (collision2 c)) "Link of collision2 must be set" ;;
      let m1Name := GetName model1 in
      let m2Name := GetName model2 in
      if skipped m1 m2 m1Name m2Name
      then GetNativeContactsHelper_loop m1 m2 rest ret
      else
        let gzContact := {| get := address it; deleter := null_deleter |} in
        GetNativeContactsHelper_loop m1 m2 rest (push_back ret gzContact)
  end.

(** [GetNativeContactsHelper(world, m1, m2)]. *)
Definition GetNativeContactsHelper (world : WorldPtr) (m1 m2 : option ModelID)
  : M (list NativeContactPtr) :=
  engine <- read world Physics ;;
  physics <- arrow engine ;;
  contactManager <- GZ_ASSERT_set (GetContactManager physics)
                      "Contact manager has to be set" ;;
  GetNativeContactsHelper_loop m1 m2 (GetContacts contactManager) [].

(** The two overloads of [GazeboPhysicsWorld::GetNativeContacts]. *)
Definition GetNativeContacts (self : GazeboPhysicsWorld) : M (list NativeContactPtr) :=
  GetNativeContactsHelper (world self) None None.

Definition GetNativeContacts_between (m1 m2 : ModelID) (self : GazeboPhysicsWorld)
  : M (list NativeContactPtr) :=
  GetNativeContactsHelper (world self) (Some m1) (Some m2).

(** ** Vocabulary of the statements *)

(** Which overload is called: the one without arguments, or the one between
    two models. *)
Inductive Overload : Type :=
| AllModels
| Between (m1 m2 : ModelID).

Definition GetContactInfo_of (q : Overload) (self : GazeboPhysicsWorld)
  : M (list ContactInfo) :=
  match q with
  | AllModels => GetContactInfo self
  | Between m1 m2 => GetContactInfo_between m1 m2 self
  end.

Definition GetNativeContacts_of (q : Overload) (self : GazeboPhysicsWorld)
  : M (list NativeContactPtr) :=
  match q with
  | AllModels => GetNativeContacts self
  | Between m1 m2 => GetNativeContacts_between m1 m2 self
  end.

(** The names a record carries, once its models and links are set. *)
Definition entity_name (e : option Entity) : string :=
  match e with
  | Some x => GetName x
  | None => ""
  end.

Definition model1_name (c : physics_Contact) : string := entity_name (GetModel (collision1 c)).
Definition link1_name (c : physics_Contact) : string := entity_name (GetLink (collision1 c)).
Definition model2_name (c : physics_Contact) : string := entity_name (GetModel (collision2 c)).
Definition link2_name (c : physics_Contact) : string := entity_name (GetLink (collision2 c)).

Definition is_set {A : Type} (ptr : option A) : bool :=
  match ptr with
  | Some _ => true
  | None => false
  end.

(** The four assertions of the helpers hold of a record. *)
Definition models_and_links_set (c : physics_Contact) : bool :=
  is_set (GetModel (collision1 c)) && is_set (GetLink (collision1 c)) &&
  is_set (GetModel (collision2 c)) && is_set (GetLink (collision2 c)).

(** The two models of a record are [m1] and [m2], in either order. *)
Definition between (m1 m2 : ModelID) (c : physics_Contact) : bool :=
  ((m1 =? model1_name c) && (m2 =? model2_name c)) ||
  ((m1 =? model2_name c) && (m2 =? model1_name c)).

(** The records an overload asks for. *)
Definition wanted (q : Overload) (c : physics_Contact) : bool :=
  match q with
  | AllModels => true
  | Between m1 m2 => between m1 m2 c
  end.

(** A record has at least one contact point. *)
Definition has_points (c : physics_Contact) : bool := (0 <? count c)%Z.

(** The state in which the contact methods can read the contact manager:
    the adaptor's pointer leads to the world [w], whose physics engine and
    contact manager are set, the manager's vector points to [records], and
    every record has its models and links. *)
Definition contacts_readable (self : GazeboPhysicsWorld) (p : Process) (w : W)
    (refs : list ContactRef) : Prop :=
  exists a engine,
    world self = Some a /\ worlds p a = Some w /\
    Physics w = Some engine /\
    GetContactManager engine = Some {| GetContacts := refs |} /\
    Forall (fun r => models_and_links_set (target r) = true) refs.

(** The world after the pause that [Update] puts it in when it finds it
    running, and the calls [Update] issues on the world at [a]. *)
Definition paused_first (w : W) : W :=
  if World_IsPaused w then w else perform (World_SetPaused true) w.

Definition Update_calls (a : addr) (w : W) (steps : Z) : list (addr * WorldCall) :=
  (if World_IsPaused w then [] else [(a, World_SetPaused true)]) ++
  [(a, Step (to_unsigned steps))].

(** The copy of point [i] of a record, and the entry a record with points
    is turned into. *)
Definition point (c : physics_Contact) (i : nat) : Contact :=
  {| position := positions c i; normal := normals c i;
     contact_wrench := wrench c i; depth := depths c i |}.

Definition info_of (c : physics_Contact) : ContactInfo :=
  {| model1 := model1_name c; modelPart1 := link1_name c;
     model2 := model2_name c; modelPart2 := link2_name c;
     contacts := map (point c) (seq 0 (Z.to_nat (count c))) |}.

(** The optional arguments an overload passes to the helpers. *)
Definition helper_m1 (q : Overload) : option ModelID :=
  match q with
  | AllModels => None
  | Between m1 _ => Some m1
  end.

Definition helper_m2 (q : Overload) : option ModelID :=
  match q with
  | AllModels => None
  | Between _ m2 => Some m2
  end.

(** The shared pointer [GetNativeContactsHelper] makes of an element of the
    contact manager's vector. *)
Definition native_of (r : ContactRef) : NativeContactPtr :=
  {| get := address r; deleter := null_deleter |}.

(** An entry is the field-by-field copy of a record: the names of the two
    models and of their links, and as many contacts as the record counts
    points, the [i]-th made of the [i]-th position, normal, wrench and
    depth. *)
Definition copy_of (c : physics_Contact) (info : ContactInfo) : Prop :=
  model1 info = model1_name c /\ modelPart1 info = link1_name c /\
  model2 info = model2_name c /\ modelPart2 info = link2_name c /\
  Z.of_nat (List.length (contacts info)) = count c /\
  forall i : nat,
    (Z.of_nat i < count c)%Z ->
    nth_error (contacts info) i =
    Some {| position := positions c i; normal := normals c i;
            contact_wrench := wrench c i; depth := depths c i |}.

(** The process image after some more lines on [cerr]. *)
Definition with_cerr (p : Process) (lines : list string) : Process :=
  {| worlds := worlds p; history := history p; cout := cout p;
     cerr := cerr p ++ lines; printOnce := printOnce p |}.

(** The diagnostic printed for a record without contact points. *)
Definition diagnostic (w : W) (c : physics_Contact) : string :=
  consistency_message (Name w) (model1_name c) (model2_name c).

(** The messages of the four assertions on a record. *)
Definition record_assertions : list string :=
  [ "Model of collision1 must be set"; "Link of collision1 must be set";
    "Model of collision2 must be set"; "Link of collision2 must be set" ].

(** ** GazeboPhysicsWorld.cc: the other methods *)

(** [GazeboPhysicsWorld::GetName]: [return world->Name();] *)
Definition GazeboPhysicsWorld_GetName (self : GazeboPhysicsWorld) : M string :=
  read (world self) Name.

(** [to_std_ptr<PhysicsEngine>] of boost_std_conversion.hh. *)
Variable to_std_ptr_PhysicsEngine : option PhysicsEngine -> option PhysicsEngine.

(** [GetPhysicsEngine]: the only accessor that tests [world] first. *)
Definition GetPhysicsEngine (self : GazeboPhysicsWorld) : M (option PhysicsEngine) :=
  match world self with
  | Some _ =>
      engine <- read (world self) Physics ;;
      mret (to_std_ptr_PhysicsEngine engine)
  | None => mret None
  end.

(** *** Loading a world *)

(** What [sdf::ElementPtr] points to, the type [float], the three constants
    [OnLoadWaitForNamespace], [OnLoadMaxWaitForNamespace] and
    [OnLoadWaitForNamespaceSleep] of GazeboPhysicsWorld.hh, and the helpers of
    GazeboHelpers.hh and GazeboWorldLoader.hh the loading methods call: none
    of them is among the sources.  The helpers may do anything to the
    process image. *)
Variables SDFElement float : Type.
Variable OnLoadWaitForNamespace : bool.
Variables OnLoadMaxWaitForNamespace OnLoadWaitForNamespaceSleep : float.
Variable helper_WaitForNamespace : string -> float -> float -> M bool.
Variable LoadWorldFromSDF : option SDFElement -> string -> M WorldPtr.
Variable LoadWorldFromFile : string -> string -> M WorldPtr.
Variable LoadWorldFromSDFString : string -> string -> M WorldPtr.

(** [GazeboPhysicsWorld::WaitForNamespace(gzworld, maxWait, waitSleep)]. *)
Definition WaitForNamespace (gzworld : WorldPtr) (maxWait waitSleep : float) : M bool :=
  worldNamespace <- read gzworld Name ;;
  loaded <- helper_WaitForNamespace worldNamespace maxWait waitSleep ;;
  if negb loaded then
    print_cerr ("Namespace of world '" ++ worldNamespace ++ "' was not loaded") ;;
    mret false
  else mret true.

(** What the three loading methods do with the world the loader returned. *)
Definition adopt_loaded (gzworld : WorldPtr) (self : GazeboPhysicsWorld)
  : M (OpResult * GazeboPhysicsWorld) :=
  match gzworld with
  | None => mret (FAILED, self)                       (* if (!gzworld) *)
  | Some _ =>
      notLoaded <-
        (if OnLoadWaitForNamespace then
           ok <- WaitForNamespace gzworld OnLoadMaxWaitForNamespace
                                  OnLoadWaitForNamespaceSleep ;;
           mret (negb ok)
         else mret false) ;;
      if notLoaded then mret (FAILED, self)
      else
        set <- SetWorld (to_std_ptr gzworld) self ;;
        mret (SUCCESS, snd set)
  end.

(** [LoadFromSDF], [LoadFromFile] and [LoadFromString]: the same body after
    three different loaders. *)
Definition LoadFromSDF (sdf : option SDFElement) (worldname : string)
    (self : GazeboPhysicsWorld) : M (OpResult * GazeboPhysicsWorld) :=
  gzworld <- LoadWorldFromSDF sdf worldname ;;
  adopt_loaded gzworld self.

Definition LoadFromFile (filename worldname : string) (self : GazeboPhysicsWorld)
  : M (OpResult * GazeboPhysicsWorld) :=
  gzworld <- LoadWorldFromFile filename worldname ;;
  adopt_loaded gzworld self.

Definition LoadFromString (str worldname : string) (self : GazeboPhysicsWorld)
  : M (OpResult * GazeboPhysicsWorld) :=
  gzworld <- LoadWorldFromSDFString str worldname ;;
  adopt_loaded gzworld self.

(** What a caller can rely on after a loading method returned [r] with the
    adaptor [self'] and the process [p']: the loader ran first and returned
    some pointer [gz]; the answer is never NOT_SUPPORTED; a null [gz] gives
    FAILED with the process as the loader left it; FAILED leaves the adaptor
    as it was; SUCCESS means [gz] is not null and is the world the adaptor now
    wraps, its own flags unchanged. *)
Definition load_outcome (loader : M WorldPtr) (self : GazeboPhysicsWorld) (p : Process)
    (r : OpResult) (self' : GazeboPhysicsWorld) (p' : Process) : Prop :=
  exists gz p1,
    loader p = Returns (gz, p1) /\
    r <> NOT_SUPPORTED /\
    (gz = None -> r = FAILED /\ p' = p1) /\
    (r = FAILED -> self' = self) /\
    (r = SUCCESS ->
     gz <> None /\ world self' = to_boost_ptr (to_std_ptr gz) /\
     paused self' = paused self /\
     enforceContactComputation self' = enforceContactComputation self).

(** *** Adding models *)

(** [ModelLoadResult] of PhysicsWorld.hh. *)
Record ModelLoadResult : Type := {
  opResult : OpResult;
  modelID : ModelID }.

(** The helpers of GazeboHelpers.hh and GazeboWorldLoader.hh the methods
    call, none of which is among the sources: the check of a string (an
    [int]), the wrapping of a string into an SDF document, the two parsers
    and the loader of a model into a world. *)
Variable isProperSDFString : string -> Z.
Variable wrapSDF : string -> string.
Variable GetSDFElementFromString : string -> string -> string -> M (option SDFElement).
Variable GetSDFElementFromFile : string -> string -> string -> M (option SDFElement).
Variable LoadModelFromSDF : option SDFElement -> WorldPtr -> string -> M (option Entity).

(** [AddModelFromSDF(sdf, modelname)]; a default-constructed [modelID] is the
    empty string. *)
Definition AddModelFromSDF (sdf : option SDFElement) (modelname : string)
    (self : GazeboPhysicsWorld) : M ModelLoadResult :=
  model <- LoadModelFromSDF sdf (world self) modelname ;;
  match model with
  | None => mret {| opResult := FAILED; modelID := "" |}
  | Some m => mret {| opResult := SUCCESS; modelID := GetName m |}
  end.

(** [AddModelFromFile(filename, modelname)]: the parsed element goes to
    [AddModelFromSDF] with its default model name. *)
Definition AddModelFromFile (filename modelname : string) (self : GazeboPhysicsWorld)
  : M ModelLoadResult :=
  sdfRoot <- GetSDFElementFromFile filename "model" modelname ;;
  match sdfRoot with
  | None =>
      print_cerr (" Could not get SDF for model in " ++ filename) ;;
      mret {| opResult := FAILED; modelID := "" |}
  | Some _ => AddModelFromSDF sdfRoot "" self
  end.

(** The decimal digits of an [int], as [operator<<] prints it. *)
Variable print_int : Z -> string.

(** [AddModelFromString(str, modelname)]: [useStr] is the string that goes
    on to the parser, if any does. *)
Definition AddModelFromString (str modelname : string) (self : GazeboPhysicsWorld)
  : M ModelLoadResult :=
  let ret := {| opResult := FAILED; modelID := "" |} in
  let checkSDF := isProperSDFString str in
  let useStr :=
    if (checkSDF <? 0)%Z then
      if (checkSDF =? -2)%Z then Some (wrapSDF str) else None
    else Some str in
  match useStr with
  | None =>
      print_cerr ("SDF is not proper so cannot load model from the string. " ++
                  "Value: " ++ print_int checkSDF) ;;
      mret ret
  | Some useStr =>
      sdfRoot <- GetSDFElementFromString useStr "model" modelname ;;
      match sdfRoot with
      | None => print_cerr " Could not get SDF for model." ;; mret ret
      | Some _ => AddModelFromSDF sdfRoot "" self
      end
  end.

(** *** The models of a world *)

(** [int numModels = world->ModelCount();]: the conversion of the
    [unsigned int] Gazebo returns to [int]. *)
Definition to_int (u : Z) : Z :=
  let r := (u mod 2 ^ 32)%Z in
  if (r <? 2 ^ 31)%Z then r else (r - 2 ^ 32)%Z.

(** The accessors of the world's models: [ModelCount()] (an
    [unsigned int]) and [ModelByIndex(i)], which may be null. *)
Class GazeboModels (W' : Type) : Type := {
  ModelCount : W' -> Z;
  ModelByIndex : W' -> Z -> option Entity }.

Context {GM : GazeboModels W}.

(** The loop of [GetAllModelIDs], at index [i] with [todo] iterations
    left. *)
Fixpoint GetAllModelIDs_loop (world : WorldPtr) (i : Z) (todo : nat)
    (names : list ModelID) : M (list ModelID) :=
  match todo with
  | O => mret names
  | S todo' =>
      m <- read world (fun w => ModelByIndex w i) ;;
      model <- arrow m ;;
      GetAllModelIDs_loop world (i + 1)%Z todo' (push_back names (GetName model))
  end.

(** [GetAllModelIDs]. *)
Definition GetAllModelIDs (self : GazeboPhysicsWorld) : M (list ModelID) :=
  count <- read (world self) ModelCount ;;
  let numModels := to_int count in
  GetAllModelIDs_loop (world self) 0 (Z.to_nat numModels) [].

End Adaptor.

Arguments Process : clear implicits.
Arguments M : clear implicits.
Arguments Stop {WorldState}.
Arguments Run {WorldState} iterations.
Arguments World_SetPaused {WorldState} flag.
Arguments Step {WorldState} steps.
Arguments SetEnforceContacts {WorldState} flag.
Arguments Apply_WorldState {WorldState} state.
Arguments target {Vector3d JointWrench double} c.
Arguments address {Vector3d JointWrench double} c.
Arguments contacts {Vector3d JointWrench double} c.
Arguments point {Vector3d JointWrench double} c i.
Arguments info_of {Vector3d JointWrench double} c.
Arguments has_points {Vector3d JointWrench double} c.
Arguments get {Heap} n.
Arguments deleter {Heap} n _ _.
Arguments null_deleter {Heap} _ h.
Arguments native_of {Vector3d JointWrench double Heap} r.

(** ** A small concrete simulator

    Vectors are integer triples, wrenches, depths and world states are
    integers, and a world keeps what the adaptor can observe of it. *)

Definition Vec3 : Type := (Z * Z * Z)%type.

Record SimpleWorld : Type := {
  sw_name : string;
  sw_paused : bool;
  sw_running : bool;
  sw_iterations : Z;
  sw_enforce : bool;
  sw_engine : option (PhysicsEngine Vec3 Z Z);
  sw_state : Z }.

Definition sw_perform (c : WorldCall Z) (w : SimpleWorld) : SimpleWorld :=
  match c with
  | Stop =>
      {| sw_name := sw_name w; sw_paused := sw_paused w; sw_running := false;
         sw_iterations := sw_iterations w; sw_enforce := sw_enforce w;
         sw_engine := sw_engine w; sw_state := sw_state w |}
  | Run _ =>
      {| sw_name := sw_name w; sw_paused := sw_paused w; sw_running := true;
         sw_iterations := sw_iterations w; sw_enforce := sw_enforce w;
         sw_engine := sw_engine w; sw_state := sw_state w |}
  | World_SetPaused flag =>
      {| sw_name := sw_name w; sw_paused := flag; sw_running := sw_running w;
         sw_iterations := sw_iterations w; sw_enforce := sw_enforce w;
         sw_engine := sw_engine w; sw_state := sw_state w |}
  | Step steps =>
      {| sw_name := sw_name w; sw_paused := sw_paused w; sw_running := sw_running w;
         sw_iterations := (sw_iterations w + steps)%Z; sw_enforce := sw_enforce w;
         sw_engine := sw_engine w; sw_state := sw_state w |}
  | SetEnforceContacts flag =>
      {| sw_name := sw_name w; sw_paused := sw_paused w; sw_running := sw_running w;
         sw_iterations := sw_iterations w; sw_enforce := flag;
         sw_engine := sw_engine w; sw_state := sw_state w |}
  | Apply_WorldState state =>
      {| sw_name := sw_name w; sw_paused := sw_paused w; sw_running := sw_running w;
         sw_iterations := sw_iterations w; sw_enforce := sw_enforce w;
         sw_engine := sw_engine w; sw_state := state |}
  end.

#[export] Instance SimpleWorld_GazeboWorld : GazeboWorld Vec3 Z Z Z SimpleWorld := {
  Name := sw_name;
  World_IsPaused := sw_paused;
  PhysicsEnabled := fun _ => true;
  Physics := sw_engine;
  State_of := sw_state;
  perform := sw_perform }.

Definition named (n : string) : option Entity := Some {| GetName := n |}.

(** A record between the models "box" and "ground" with [n] points: point
    [i] lies at height [i], with a unit normal, wrench [i] and depth
    [10 * i]. *)
Definition box_on_ground (n : Z) : physics_Contact Vec3 Z Z :=
  {| collision1 := {| GetModel := named "box"; GetLink := named "link" |};
     collision2 := {| GetModel := named "ground"; GetLink := named "plane" |};
     count := n;
     positions := fun i => (0, 0, Z.of_nat i)%Z;
     normals := fun _ => (0, 0, 1)%Z;
     wrench := fun i => Z.of_nat i;
     depths := fun i => (10 * Z.of_nat i)%Z |}.

(** A record between "ball" and "ground" with one point. *)
Definition ball_on_ground : physics_Contact Vec3 Z Z :=
  {| collision1 := {| GetModel := named "ground"; GetLink := named "plane" |};
     collision2 := {| GetModel := named "ball"; GetLink := named "link" |};
     count := 1;
     positions := fun _ => (5, 5, 0)%Z;
     normals := fun _ => (0, 0, 1)%Z;
     wrench := fun _ => 7%Z;
     depths := fun _ => 1%Z |}.

(** Three records: one without points, two with. *)
Definition three_records : list (physics_Contact Vec3 Z Z) :=
  [box_on_ground 0; ball_on_ground; box_on_ground 2].

(** A world whose contact manager holds the given records at the addresses
    100, 101, ... *)
Fixpoint at_addresses (from : positive) (cs : list (physics_Contact Vec3 Z Z))
  : list (ContactRef Vec3 Z Z) :=
  match cs with
  | [] => []
  | c :: cs' => {| address := from; target := c |} :: at_addresses (Pos.succ from) cs'
  end.

Definition world_with (is_paused : bool) (cs : list (physics_Contact Vec3 Z Z)) : SimpleWorld :=
  {| sw_name := "default"; sw_paused := is_paused; sw_running := true;
     sw_iterations := 0; sw_enforce := false;
     sw_engine := Some {| GetContactManager :=
                            Some {| GetContacts := at_addresses 100 cs |} |};
     sw_state := 40 |}.

(** A process whose simulator owns the single world [w], at address 1. *)
Definition process_with (w : SimpleWorld) : Process Z SimpleWorld :=
  {| worlds := fun a => if Pos.eqb a 1 then Some w else None;
     history := []; cout := []; cerr := []; printOnce := true |}.

(** An adaptor that wraps the world at address 1. *)
Definition adaptor_on_1 (is_paused : bool) : GazeboPhysicsWorld :=
  {| world := Some 1%positive; enforceContactComputation := false; paused := is_paused |}.

(** A record whose second collision has no model. *)
Definition record_without_model : physics_Contact Vec3 Z Z :=
  {| collision1 := {| GetModel := named "box"; GetLink := named "link" |};
     collision2 := {| GetModel := None; GetLink := named "plane" |};
     count := 1;
     positions := fun _ => (0, 0, 0)%Z;
     normals := fun _ => (0, 0, 1)%Z;
     wrench := fun _ => 0%Z;
     depths := fun _ => 0%Z |}.


(** A world that is nothing but the list of its models. *)
Record ListedWorld : Type := { lw_models : list Entity }.

#[export] Instance ListedWorld_GazeboModels : GazeboModels ListedWorld := {
  ModelCount := fun w => Z.of_nat (List.length (lw_models w));
  ModelByIndex := fun w i =>
    if (i <? 0)%Z then None else nth_error (lw_models w) (Z.to_nat i) }.

(** A process whose simulator owns one listed world, at address 1. *)
Definition listed_process (names : list string) : Process Z ListedWorld :=
  {| worlds := fun a => if Pos.eqb a 1
                        then Some {| lw_models := map (fun n => {| GetName := n |}) names |}
                        else None;
     history := []; cout := []; cerr := []; printOnce := true |}.

(** ** test/Static_TEST.cc *)

(** The mesh data a test builds: explicit vertices and faces, or a sphere
    from the mesh generator ([MakeSphere(radius, 10, 10)]). *)
Inductive MeshData : Type :=
| Mesh (vertices : list (Z * Z * Z)) (faces : list (nat * nat * nat))
| MakeSphere (radius : Q) (theta phi : Z).

(** The shapes the tests create. *)
Inductive Shape : Type :=
| CreateBox (x y z : Q)
| CreateCylinder (radius length : Q)
| CreateSphere (radius : Q)
| SimpleTriMeshShape (meshData : MeshData) (name : string).

(** The calls a test makes on the fixture [StaticTestFramework]. *)
Inductive FixtureCall : Type :=
| PrepareWorld (engines : list string)
| LoadShape (shape : Shape) (modelName : string)
| AaBbTest (modelName1 modelName2 : string) (cellSizeFactor minAgree zeroDepthTol : Q)
    (interactive : bool) (outputPath : string).

(** [const double zeroDepthTol = 5e-02;] and [const double minAgree = 0.999;] *)
Definition zeroDepthTol : Q := 5 # 100.
Definition minAgree : Q := 999 # 1000.

(** [GetSimpleTestTriangle]: the name given to the shape is the local
    "model1", whatever the argument. *)
Definition GetSimpleTestTriangle (modelName : string) : Shape :=
  let modelName1 := "model1" in
  let vertices := [] in
  let triangles := [] in
  let vertices := push_back vertices (-1, 0, 0)%Z in
  let vertices := push_back vertices (0, 0, -1)%Z in
  let vertices := push_back vertices (1, 0, 0)%Z in
  let vertices := push_back vertices (0, 1, 0)%Z in
  let triangles := push_back triangles (0, 1, 2)%nat in
  let triangles := push_back triangles (0, 2, 3)%nat in
  SimpleTriMeshShape (Mesh vertices triangles) modelName1.

(** The engines every test of the file selects: three [push_back]s; the one
    for "simbody" is commented out. *)
Definition selectedEngines : list string :=
  let selectedEngines := [] in
  let selectedEngines := push_back selectedEngines "bullet" in
  let selectedEngines := push_back selectedEngines "ode" in
  let selectedEngines := push_back selectedEngines "dart" in
  (* selectedEngines.push_back("simbody"); *)
  selectedEngines.

(** [TEST_F(StaticTest, TwoShapesTest1)] *)
Definition TwoShapesTest1 : list FixtureCall :=
  let modelName1 := "model1" in
  let shape1 := CreateBox 2 2 2 in
  let modelName2 := "model2" in
  let shape2 := CreateCylinder 1 3 in
  let interactive := true in
  let cellSizeFactor := 1 # 10 in
  [ PrepareWorld selectedEngines;
    LoadShape shape1 modelName1;
    LoadShape shape2 modelName2;
    AaBbTest modelName1 modelName2 cellSizeFactor minAgree zeroDepthTol interactive "" ].

(** [TEST_F(StaticTest, CylinderAndTwoTriangles)] *)
Definition CylinderAndTwoTriangles : list FixtureCall :=
  let modelName1 := "model1" in
  let shape1 := GetSimpleTestTriangle modelName1 in
  let modelName2 := "model2" in
  let shape2 := CreateCylinder 1 3 in
  let interactive := true in
  let cellSizeFactor := 1 # 10 in
  let outputPath := "" in
  [ PrepareWorld selectedEngines;
    LoadShape shape1 modelName1;
    LoadShape shape2 modelName2;
    AaBbTest modelName1 modelName2 cellSizeFactor minAgree zeroDepthTol interactive outputPath ].

(** [TEST_F(StaticTest, SpherePrimMesh)] *)
Definition SpherePrimMesh : list FixtureCall :=
  let radius := 2 in
  let meshName := "SphereMesh" in
  let sphereMeshData := MakeSphere radius 10 10 in
  let sphereMesh := SimpleTriMeshShape sphereMeshData meshName in
  let primName := "SpherePrimitive" in
  let spherePrimitive := CreateSphere radius in
  let interactive := true in
  let cellSizeFactor := 1 # 10 in
  let outputPath := "" in
  [ PrepareWorld selectedEngines;
    LoadShape sphereMesh meshName;
    LoadShape spherePrimitive primName;
    AaBbTest meshName primName cellSizeFactor minAgree zeroDepthTol interactive outputPath ].

(** The tests of the file that compare a pair of shapes. *)
Definition static_tests : list (list FixtureCall) :=
  [TwoShapesTest1; CylinderAndTwoTriangles; SpherePrimMesh].

(** A world of the benchmark: the physics engine it runs and the models
    loaded into it, in loading order. *)
Record EngineWorld : Type := {
  engine_name : string;
  loaded : list (string * Shape) }.

(** The fixture's state: its worlds, and for every comparison made the two
    model names with the worlds as they were then. *)
Record Fixture : Type := {
  fixture_worlds : list EngineWorld;
  comparisons : list (string * string * list EngineWorld) }.

(** Modelled from the spec: [PrepareWorld], [LoadShape] and [AaBbTest] of
    StaticTestFramework, which is not among the sources.  The benchmark
    "loads the same scene description into several independently running
    physics-engine worlds ... and compares resulting contact points":
    [PrepareWorld] makes one world per engine it is given, [LoadShape] adds
    the shape as a model to every world, and [AaBbTest] compares the worlds
    as they are. *)
Definition fixture_step (f : Fixture) (c : FixtureCall) : Fixture :=
  match c with
  | PrepareWorld engines =>
      {| fixture_worlds := map (fun e => {| engine_name := e; loaded := [] |}) engines;
         comparisons := comparisons f |}
  | LoadShape shape modelName =>
      {| fixture_worlds :=
           map (fun w => {| engine_name := engine_name w;
                            loaded := push_back (loaded w) (modelName, shape) |})
               (fixture_worlds f);
         comparisons := comparisons f |}
  | AaBbTest modelName1 modelName2 _ _ _ _ _ =>
      {| fixture_worlds := fixture_worlds f;
         comparisons := push_back (comparisons f)
                                  (modelName1, modelName2, fixture_worlds f) |}
  end.

Definition run_test (test : list FixtureCall) : Fixture :=
  fold_left fixture_step test {| fixture_worlds := []; comparisons := [] |}.

(** The four engines Gazebo can be built with. *)
Definition all_engines : list string := ["ode"; "bullet"; "dart"; "simbody"].

(** * Properties *)

Unset Implicit Arguments.

Section Properties.

Context {Vector3d JointWrench double WorldState : Type}.
Context {W : Type} {GW : GazeboWorld Vector3d JointWrench double WorldState W}.

Local Abbreviation Proc := (Process WorldState W).

(** ** The primitives of the monad *)

Lemma store_same (a : addr) (w : W) (ws : addr -> option W) :
  store a w ws a = Some w.
Proof. unfold store. now rewrite Pos.eqb_refl. Qed.

Lemma store_other (a b : addr) (w : W) (ws : addr -> option W) :
  b <> a -> store a w ws b = ws b.
Proof.
  intros Hne. unfold store.
  destruct (Pos.eqb_spec b a) as [Heq | _]; [contradiction | reflexivity].
Qed.

Lemma follow_world (a : addr) (w : W) (p : Proc) :
  worlds p a = Some w -> follow (Some a) p = Returns ((a, w), p).
Proof. intros Hw. unfold follow. now rewrite Hw. Qed.

Lemma read_world {X : Type} (a : addr) (w : W) (p : Proc) (f : W -> X) :
  worlds p a = Some w -> read (Some a) f p = Returns (f w, p).
Proof. intros Hw. unfold read, mbind, mret. now rewrite (follow_world _ _ _ Hw). Qed.

Lemma invoke_world (a : addr) (w : W) (p : Proc) (c : WorldCall WorldState) :
  worlds p a = Some w ->
  invoke (Some a) c p =
  Returns (tt, {| worlds := store a (perform c w) (worlds p);
                  history := history p ++ [(a, c)];
                  cout := cout p; cerr := cerr p; printOnce := printOnce p |}).
Proof. intros Hw. unfold invoke, mbind. now rewrite (follow_world _ _ _ Hw). Qed.

(** ** Pausing and stepping *)

(** [Update] when it is not held back by the adaptor's flag. *)
Lemma Update_runs (steps : Z) (force : bool) (self : GazeboPhysicsWorld) (p : Proc)
    (a : addr) (w : W) :
  world self = Some a -> worlds p a = Some w ->
  negb force && paused self = false ->
  Update steps force self p =
  Returns (tt, {| worlds := store a (perform (Step (to_unsigned steps)) (paused_first w))
                              (if World_IsPaused w then worlds p
                               else store a (paused_first w) (worlds p));
                  history := history p ++ Update_calls a w steps;
                  cout := cout p ++ (if World_IsPaused w || negb (printOnce p)
                                     then [] else [not_paused_warning]);
                  cerr := cerr p;
                  printOnce := printOnce p && World_IsPaused w |}).
Proof.
  intros Ha Hw Hgo. unfold Update, IsPaused, paused_first, Update_calls.
  cbn [mbind mret]. rewrite Hgo, Ha.
  unfold mbind at 1. rewrite (read_world _ _ _ _ Hw).
  destruct (World_IsPaused w) eqn:Hgz; cbn [negb orb].
  - unfold mbind, mret. rewrite (invoke_world _ _ _ _ Hw).
    cbn [app]. now rewrite app_nil_r, andb_true_r.
  - unfold mbind, mret, get_printOnce, print_cout, set_printOnce.
    destruct (printOnce p) eqn:Honce; cbn [negb andb].
    + erewrite invoke_world by (cbn; exact Hw).
      erewrite invoke_world by (cbn; apply store_same).
      cbn [worlds history cout cerr printOnce]. unfold push_back.
      rewrite <- app_assoc. reflexivity.
    + erewrite invoke_world by (cbn; exact Hw).
      erewrite invoke_world by (cbn; apply store_same).
      cbn [worlds history cout cerr printOnce].
      rewrite <- app_assoc. rewrite app_nil_r, Honce. reflexivity.
Qed.

(** C9.  [SetPaused(flag)] returns with the adaptor's flag set to [flag]
    (so [IsPaused()] then returns [flag]), its other members as they were, and
    the process image, with every world of the simulator and the calls they
    received, exactly as it was.  While the flag is set, [Update(steps,
    false)] returns with the process image as it was, whatever [steps] is;
    [Update(steps, true)] on a loaded world does step it: the world receives
    [Step] with [steps] converted to [unsigned int]. *)
Theorem SetPaused_is_local_and_gates_Update :
  forall (flag : bool) (steps : Z) (self : GazeboPhysicsWorld) (p : Proc),
    (exists self',
        SetPaused flag self p = Returns (self', p) /\
        IsPaused self' p = Returns (flag, p) /\
        world self' = world self /\
        enforceContactComputation self' = enforceContactComputation self) /\
    (paused self = true -> Update steps false self p = Returns (tt, p)) /\
    (paused self = true ->
     forall (a : addr) (w : W),
       world self = Some a -> worlds p a = Some w ->
       exists p',
         Update steps true self p = Returns (tt, p') /\
         worlds p' a = Some (perform (Step (to_unsigned steps)) (paused_first w)) /\
         history p' = history p ++ Update_calls a w steps /\
         In (a, Step (to_unsigned steps)) (Update_calls a w steps)).
Proof.
  intros flag steps self p. split; [| split].
  - eexists. repeat split; reflexivity.
  - intros Hp. unfold Update, IsPaused, mbind, mret. now rewrite Hp.
  - intros _ a w Ha Hw.
    rewrite (Update_runs steps true self p a w Ha Hw eq_refl).
    eexists. split; [reflexivity |]. cbn [worlds history].
    split; [apply store_same |]. split; [reflexivity |].
    unfold Update_calls. apply in_or_app. right. now left.
Qed.

Lemma to_unsigned_of_int (steps : Z) :
  ((0 <= steps < 2 ^ 31)%Z -> to_unsigned steps = steps) /\
  ((- 2 ^ 31 <= steps < 0)%Z -> to_unsigned steps = (steps + 2 ^ 32)%Z).
Proof.
  unfold to_unsigned. split; intros Hrange.
  - apply Z.mod_small. lia.
  - symmetry. apply (Z.mod_unique steps (2 ^ 32) (-1) (steps + 2 ^ 32)); lia.
Qed.


(** ** World states *)

(** C6.  On a loaded world, [GetWorldStateDiff(other)] returns [other] minus
    the state read from the world, and changes nothing.  Whenever applying
    [x - y] onto [y] gives [x] for Gazebo's states, applying the returned
    state onto the current one gives [other]. *)
Theorem GetWorldStateDiff_is_other_minus_current :
  forall (minus : WorldState -> WorldState -> WorldState) (other : WorldState)
         (self : GazeboPhysicsWorld) (p : Proc) (a : addr) (w : W),
    world self = Some a -> worlds p a = Some w ->
    exists diff,
      GetWorldStateDiff minus other self p = Returns (diff, p) /\
      GetWorldState self p = Returns (State_of w, p) /\
      diff = minus other (State_of w) /\
      forall apply : WorldState -> WorldState -> WorldState,
        (forall x y, apply (minus x y) y = x) ->
        apply diff (State_of w) = other.
Proof.
  intros minus other self p a w Ha Hw.
  exists (minus other (State_of w)).
  unfold GetWorldStateDiff, GetWorldState. rewrite Ha.
  unfold mbind. rewrite (read_world _ _ _ _ Hw).
  repeat split. intros apply Happly. apply Happly.
Qed.

(** C8.  Whatever the state, [isDiff], the build flag DEBUG and the outcome
    of the state comparison are, [SetWorldState] returns nothing but SUCCESS;
    on a loaded world it does return, after handing the state to the helper
    once, however the world reacts to it. *)
Theorem SetWorldState_always_SUCCESS :
  forall (DEBUG : bool) (Equal : WorldState -> WorldState -> bool -> bool)
         (state : WorldState) (isDiff : bool) (self : GazeboPhysicsWorld) (p : Proc),
    (forall r p', SetWorldState DEBUG Equal state isDiff self p = Returns (r, p') ->
                  r = SUCCESS) /\
    (forall (a : addr) (w : W),
        world self = Some a -> worlds p a = Some w ->
        exists p',
          SetWorldState DEBUG Equal state isDiff self p = Returns (SUCCESS, p') /\
          worlds p' a = Some (perform (Apply_WorldState state) w) /\
          history p' = history p ++ [(a, Apply_WorldState state)]).
Proof.
  intros DEBUG Equal state isDiff self p. split.
  - intros r p'. unfold SetWorldState, mbind, mret.
    destruct (invoke (world self) (Apply_WorldState state) p) as [[[] p1] | f];
      [| discriminate].
    destruct DEBUG.
    + destruct (read (world self) _ p1) as [[s p2] | f]; [| discriminate].
      destruct (read (world self) _ p2) as [[e p3] | f]; [| discriminate].
      destruct (negb (Equal s state (negb e))); cbn; congruence.
    + congruence.
  - intros a w Ha Hw. unfold SetWorldState. rewrite Ha.
    unfold mbind at 1. rewrite (invoke_world _ _ _ _ Hw).
    destruct DEBUG.
    + unfold mbind, mret.
      erewrite read_world by (cbn; apply store_same).
      erewrite read_world by (cbn; apply store_same).
      destruct (negb _); cbn;
        (eexists; split; [reflexivity |]; cbn; split; [apply store_same | reflexivity]).
    + unfold mbind, mret.
      eexists; split; [reflexivity |]; cbn; split; [apply store_same | reflexivity].
Qed.

(** ** The adapted world *)

(** C2, as amended.  [IsAdaptor()] is true.  [SetWorld] returns nothing but
    REFERENCED.  When the pointer conversions keep the address they are given
    and [_world] points to a world of the simulator whose physics engine and
    contact manager are set, [SetWorld(_world)] returns REFERENCED, a
    following [GetWorld()] returns a pointer to the same address, and no other
    address of the simulator holds anything new: the world received four
    calls and was not copied. *)
Theorem SetWorld_references_the_given_world :
  forall (to_boost_ptr to_std_ptr : WorldPtr -> WorldPtr)
         (self : GazeboPhysicsWorld) (p : Proc) (a : addr) (w : W)
         (engine : PhysicsEngine Vector3d JointWrench double)
         (cm : ContactManager Vector3d JointWrench double),
    (forall q, to_boost_ptr q = q) -> (forall q, to_std_ptr q = q) ->
    worlds p a = Some w ->
    Physics w = Some engine -> GetContactManager engine = Some cm ->
    IsAdaptor self = true /\
    (forall ptr p0 r self1 p1,
        SetWorld to_boost_ptr ptr self p0 = Returns ((r, self1), p1) -> r = REFERENCED) /\
    exists self' p',
      SetWorld to_boost_ptr (Some a) self p = Returns ((REFERENCED, self'), p') /\
      GetWorld to_std_ptr self' p' = Returns (Some a, p') /\
      IsAdaptor self' = true /\
      (forall b, b <> a -> worlds p' b = worlds p b) /\
      worlds p' a =
        Some (perform (Run 0)
               (perform (World_SetPaused true)
                 (perform Stop
                   (perform (SetEnforceContacts (enforceContactComputation self)) w)))) /\
      history p' =
        history p ++
        [(a, SetEnforceContacts (enforceContactComputation self)); (a, Stop);
         (a, World_SetPaused true); (a, Run 0)].
Proof.
  intros to_boost_ptr to_std_ptr self p a w engine cm Hb Hs Hw He Hcm.
  split; [reflexivity |]. split.
  - intros ptr p0 r self1 p1. unfold SetWorld, mbind, mret.
    destruct (SetEnforceContactsComputation _ _ p0) as [[s2 p2] | f]; [| discriminate].
    destruct (PostWorldLoaded s2 p2) as [[[] p3] | f]; [| discriminate].
    congruence.
  - unfold SetWorld, SetEnforceContactsComputation, PostWorldLoaded.
    cbn [world enforceContactComputation paused]. rewrite Hb.
    unfold GZ_ASSERT, mbind.
    rewrite (read_world _ _ _ _ Hw), He, Hcm. unfold mret.
    rewrite (invoke_world _ _ _ _ Hw). cbn [world].
    erewrite invoke_world by (cbn; apply store_same).
    erewrite invoke_world by (cbn; apply store_same).
    erewrite invoke_world by (cbn; apply store_same).
    do 2 eexists. split; [reflexivity |]. cbn [worlds history].
    split; [unfold GetWorld, mret; cbn [world]; now rewrite Hs |].
    split; [reflexivity |]. split; [| split].
    + intros b Hne. now rewrite !store_other by exact Hne.
    + apply store_same.
    + now rewrite <- !app_assoc.
Qed.

(** ** Contacts *)

Lemma all_set (c : physics_Contact Vector3d JointWrench double) :
  models_and_links_set c = true ->
  exists model1 link1 model2 link2,
    GetModel (collision1 c) = Some model1 /\ GetLink (collision1 c) = Some link1 /\
    GetModel (collision2 c) = Some model2 /\ GetLink (collision2 c) = Some link2.
Proof.
  unfold models_and_links_set, is_set.
  destruct (GetModel (collision1 c)) as [x1 |]; [| discriminate].
  destruct (GetLink (collision1 c)) as [y1 |]; [| discriminate].
  destruct (GetModel (collision2 c)) as [x2 |]; [| discriminate].
  destruct (GetLink (collision2 c)) as [y2 |]; [| discriminate].
  intros _. now exists x1, y1, x2, y2.
Qed.

(** The inner loop appends the copies of the points [i], [i+1], ... *)
Lemma copy_points_appends (c : physics_Contact Vector3d JointWrench double) :
  forall (todo i : nat) (cInfo : ContactInfo Vector3d JointWrench double),
    copy_points c i todo cInfo =
    {| model1 := model1 cInfo; modelPart1 := modelPart1 cInfo;
       model2 := model2 cInfo; modelPart2 := modelPart2 cInfo;
       contacts := contacts cInfo ++ map (point c) (seq i todo) |}.
Proof.
  induction todo as [| todo IH]; intros i cInfo; cbn [copy_points seq map].
  - rewrite app_nil_r. now destruct cInfo.
  - rewrite IH. unfold contacts_push_back, push_back. cbn.
    now rewrite <- app_assoc.
Qed.

(** What the helper builds for a record is its entry. *)
Lemma entry_is_info_of (c : physics_Contact Vector3d JointWrench double)
    (x1 y1 x2 y2 : Entity) :
  GetModel (collision1 c) = Some x1 -> GetLink (collision1 c) = Some y1 ->
  GetModel (collision2 c) = Some x2 -> GetLink (collision2 c) = Some y2 ->
  copy_points c 0 (Z.to_nat (count c))
    (new_ContactInfo Vector3d JointWrench double
       (GetName x1) (GetName y1) (GetName x2) (GetName y2)) =
  info_of c.
Proof.
  intros E1 E2 E3 E4. rewrite copy_points_appends.
  unfold info_of, model1_name, link1_name, model2_name, link2_name.
  now rewrite E1, E2, E3, E4.
Qed.

Lemma no_points_iff (c : physics_Contact Vector3d JointWrench double) :
  has_points c = false <-> Z.to_nat (count c) = O.
Proof. unfold has_points. rewrite Z.ltb_ge. lia. Qed.

(** The test of the helpers is the complement of [between]. *)
Lemma skipped_between (m1 m2 : ModelID) (n1 n2 : string) :
  skipped (Some m1) (Some m2) n1 n2 =
  negb (((m1 =? n1) && (m2 =? n2)) || ((m1 =? n2) && (m2 =? n1))).
Proof.
  unfold skipped.
  now destruct (m1 =? n1), (m2 =? n2), (m1 =? n2), (m2 =? n1).
Qed.

Lemma skipped_wanted (q : Overload) (c : physics_Contact Vector3d JointWrench double) :
  skipped (helper_m1 q) (helper_m2 q) (model1_name c) (model2_name c) =
  negb (wanted q c).
Proof.
  destruct q as [| m1 m2]; [reflexivity |]. apply skipped_between.
Qed.

Lemma with_cerr_nil (p : Proc) : with_cerr p [] = p.
Proof. unfold with_cerr. rewrite app_nil_r. now destruct p. Qed.

Lemma with_cerr_cons (p : Proc) (line : string) (lines : list string) :
  with_cerr (with_cerr p [line]) lines = with_cerr p (line :: lines).
Proof. unfold with_cerr. cbn. now rewrite <- app_assoc. Qed.

(** The loop of [GetContactInfoHelper] on records that all have their models
    and links: it returns, having appended the entries of the records that
    are not skipped and have points, and having printed one diagnostic for
    each record that is not skipped and has none. *)
Lemma GetContactInfoHelper_loop_returns (a : addr) (w : W) (m1 m2 : option ModelID) :
  forall (refs : list (ContactRef Vector3d JointWrench double))
         (ret : list (ContactInfo Vector3d JointWrench double)) (p : Proc),
    worlds p a = Some w ->
    Forall (fun r => models_and_links_set (target r) = true) refs ->
    GetContactInfoHelper_loop (Some a) m1 m2 refs ret p =
    Returns
      (ret ++ map info_of
                (filter (fun c => negb (skipped m1 m2 (model1_name c) (model2_name c))
                                  && has_points c)
                        (map target refs)),
       with_cerr p
         (map (diagnostic w)
              (filter (fun c => negb (skipped m1 m2 (model1_name c) (model2_name c))
                                && negb (has_points c))
                      (map target refs)))).
Proof.
  induction refs as [| it rest IH]; intros ret p Hw Hset.
  - cbn. now rewrite app_nil_r, with_cerr_nil.
  - inversion Hset as [| ? ? Hit Hrest]; subst.
    destruct (all_set _ Hit) as (x1 & y1 & x2 & y2 & E1 & E2 & E3 & E4).
    cbn [GetContactInfoHelper_loop map filter].
    unfold mbind at 1. rewrite E1. cbn [GZ_ASSERT_set mret].
    unfold mbind at 1. rewrite E2. cbn [GZ_ASSERT_set mret].
    unfold mbind at 1. rewrite E3. cbn [GZ_ASSERT_set mret].
    unfold mbind at 1. rewrite E4. cbn [GZ_ASSERT_set mret].
    assert (N1 : model1_name (target it) = GetName x1)
      by (unfold model1_name; now rewrite E1).
    assert (N2 : model2_name (target it) = GetName x2)
      by (unfold model2_name; now rewrite E3).
    rewrite N1, N2.
    destruct (skipped m1 m2 (GetName x1) (GetName x2)) eqn:Hskip; cbn [negb andb].
    + now apply IH.
    + rewrite (entry_is_info_of _ _ _ _ _ E1 E2 E3 E4).
      destruct (has_points (target it)) eqn:Hpts; cbn [negb].
      * unfold info_of at 1. cbn [contacts].
        destruct (Z.to_nat (count (target it))) as [| n] eqn:Hn.
        { apply no_points_iff in Hn. congruence. }
        cbn [seq map]. rewrite IH by assumption.
        unfold push_back. rewrite <- app_assoc. reflexivity.
      * unfold info_of at 1. cbn [contacts].
        apply no_points_iff in Hpts. rewrite Hpts. cbn [seq map].
        unfold mbind at 1. rewrite (read_world _ _ _ _ Hw).
        unfold mbind at 1. unfold print_cerr at 1.
        rewrite IH by assumption. cbn [map].
        unfold diagnostic at 2. rewrite N1, N2.
        f_equal. f_equal. apply with_cerr_cons.
Qed.

(** Both overloads of [GetContactInfo], when the contact manager can be
    read: the entries of the wanted records that have points, in the order of
    the manager's vector, and the diagnostics of the wanted records that have
    none. *)
Lemma GetContactInfo_of_returns (q : Overload) (self : GazeboPhysicsWorld) (p : Proc)
    (w : W) (refs : list (ContactRef Vector3d JointWrench double)) :
  contacts_readable self p w refs ->
  GetContactInfo_of q self p =
  Returns
    (map info_of (filter (fun c => wanted q c && has_points c) (map target refs)),
     with_cerr p
       (map (diagnostic w)
            (filter (fun c => wanted q c && negb (has_points c)) (map target refs)))).
Proof.
  intros (a & engine & Ha & Hw & He & Hcm & Hset).
  assert (Hhelper :
            GetContactInfo_of q self p =
            GetContactInfoHelper (world self) (helper_m1 q) (helper_m2 q) p)
    by now destruct q.
  rewrite Hhelper, Ha. unfold GetContactInfoHelper.
  unfold mbind at 1. rewrite (read_world _ _ _ _ Hw), He.
  cbn [arrow]. unfold mbind at 1. cbn [mret].
  unfold mbind at 1. rewrite Hcm. cbn [GZ_ASSERT_set mret GetContacts].
  rewrite (GetContactInfoHelper_loop_returns a w _ _ refs [] p Hw Hset).
  cbn [app]. f_equal. f_equal.
  - f_equal. apply filter_ext. intros c. now rewrite skipped_wanted, negb_involutive.
  - f_equal. f_equal. apply filter_ext. intros c.
    now rewrite skipped_wanted, negb_involutive.
Qed.

Lemma between_iff (m1 m2 : ModelID) (c : physics_Contact Vector3d JointWrench double) :
  between m1 m2 c = true <->
  (m1 = model1_name c /\ m2 = model2_name c) \/
  (m1 = model2_name c /\ m2 = model1_name c).
Proof.
  unfold between. rewrite orb_true_iff, !andb_true_iff, !String.eqb_eq. tauto.
Qed.

Lemma has_points_iff (c : physics_Contact Vector3d JointWrench double) :
  has_points c = true <-> (0 < count c)%Z.
Proof. unfold has_points. apply Z.ltb_lt. Qed.

Lemma info_of_copy (c : physics_Contact Vector3d JointWrench double) :
  (0 < count c)%Z -> copy_of c (info_of c).
Proof.
  intros Hpos. unfold copy_of, info_of. cbn [model1 modelPart1 model2 modelPart2 contacts].
  repeat split.
  - rewrite length_map, length_seq. lia.
  - intros i Hi. rewrite nth_error_map.
    rewrite nth_error_seq.
    destruct (Nat.ltb_spec i (Z.to_nat (count c))) as [_ | Hge]; [reflexivity | lia].
Qed.

(** C1, as amended.  When the contact manager can be read,
    [GetContactInfo(m1, m2)] returns, in the order of the manager's vector,
    one entry for each record that has at least one contact point and whose
    two models are [m1] and [m2] in either order, and nothing else;
    [GetContactInfo()] returns one entry for each record that has at least
    one contact point, whatever its models are. *)
Theorem GetContactInfo_returns_wanted_records_with_points :
  forall (m1 m2 : ModelID) (self : GazeboPhysicsWorld) (p : Proc) (w : W)
         (refs : list (ContactRef Vector3d JointWrench double)),
    contacts_readable self p w refs ->
    (exists p',
        GetContactInfo_between m1 m2 self p =
        Returns (map info_of
                   (filter (fun c => between m1 m2 c && has_points c) (map target refs)),
                 p')) /\
    (exists p',
        GetContactInfo self p =
        Returns (map info_of (filter has_points (map target refs)), p')) /\
    (forall c : physics_Contact Vector3d JointWrench double,
        (between m1 m2 c = true <->
         (m1 = model1_name c /\ m2 = model2_name c) \/
         (m1 = model2_name c /\ m2 = model1_name c)) /\
        (has_points c = true <-> (0 < count c)%Z) /\
        ((0 < count c)%Z -> copy_of c (info_of c))).
Proof.
  intros m1 m2 self p w refs Hread. split; [| split].
  - eexists. exact (GetContactInfo_of_returns (Between m1 m2) self p w refs Hread).
  - eexists. exact (GetContactInfo_of_returns AllModels self p w refs Hread).
  - intros c. split; [apply between_iff |]. split; [apply has_points_iff |].
    apply info_of_copy.
Qed.

(** C4.  When the contact manager can be read, either overload of
    [GetContactInfo] returns entries each of which is the copy of a record of
    the manager (its two model names, its two link names, exactly [count]
    contacts, the [i]-th built from [positions[i]], [normals[i]],
    [wrench[i]] and [depths[i]]), and every wanted record with [count > 0]
    has such an entry in the result. *)
Theorem GetContactInfo_copies_fields :
  forall (q : Overload) (self : GazeboPhysicsWorld) (p : Proc) (w : W)
         (refs : list (ContactRef Vector3d JointWrench double)),
    contacts_readable self p w refs ->
    exists res p',
      GetContactInfo_of q self p = Returns (res, p') /\
      (forall info, In info res ->
                    exists r, In r refs /\ wanted q (target r) = true /\
                              copy_of (target r) info) /\
      (forall r, In r refs -> wanted q (target r) = true ->
                 (0 < count (target r))%Z ->
                 exists info, In info res /\ copy_of (target r) info).
Proof.
  intros q self p w refs Hread.
  rewrite (GetContactInfo_of_returns q self p w refs Hread).
  do 2 eexists. split; [reflexivity |]. split.
  - intros info Hin. apply in_map_iff in Hin. destruct Hin as (c & <- & Hc).
    apply filter_In in Hc. destruct Hc as [Hc Hsel].
    apply in_map_iff in Hc. destruct Hc as (r & <- & Hr).
    apply andb_true_iff in Hsel. destruct Hsel as [Hq Hpts].
    exists r. repeat split; try assumption.
    all: apply info_of_copy; now apply has_points_iff.
  - intros r Hr Hq Hpos. exists (info_of (target r)). split.
    + apply in_map. apply filter_In. split; [now apply in_map |].
      apply andb_true_iff. split; [exact Hq | now apply has_points_iff].
    + now apply info_of_copy.
Qed.

(** C10.  When the contact manager can be read, either overload of
    [GetContactInfo] returns a vector in which every entry has a non-empty
    [contacts] vector and comes from a record with [count > 0]; for every
    wanted record without points one diagnostic is appended to [cerr], and
    the result has as many entries as there are wanted records with
    points. *)
Theorem GetContactInfo_entries_never_empty :
  forall (q : Overload) (self : GazeboPhysicsWorld) (p : Proc) (w : W)
         (refs : list (ContactRef Vector3d JointWrench double)),
    contacts_readable self p w refs ->
    exists res p',
      GetContactInfo_of q self p = Returns (res, p') /\
      Forall (fun info => contacts info <> []) res /\
      (forall info, In info res ->
                    exists r, In r refs /\ (0 < count (target r))%Z /\
                              info = info_of (target r)) /\
      List.length res =
        List.length (filter (fun c => wanted q c && has_points c) (map target refs)) /\
      cerr p' =
        cerr p ++
        map (diagnostic w)
            (filter (fun c => wanted q c && negb (has_points c)) (map target refs)).
Proof.
  intros q self p w refs Hread.
  rewrite (GetContactInfo_of_returns q self p w refs Hread).
  do 2 eexists. split; [reflexivity |].
  assert (Hfrom : forall info,
             In info (map info_of
                        (filter (fun c => wanted q c && has_points c) (map target refs))) ->
             exists r, In r refs /\ (0 < count (target r))%Z /\ info = info_of (target r)).
  { intros info Hin. apply in_map_iff in Hin. destruct Hin as (c & <- & Hc).
    apply filter_In in Hc. destruct Hc as [Hc Hsel].
    apply in_map_iff in Hc. destruct Hc as (r & <- & Hr).
    apply andb_true_iff in Hsel. destruct Hsel as [_ Hpts].
    exists r. repeat split; [exact Hr | now apply has_points_iff]. }
  split; [| split; [exact Hfrom | split; [apply length_map | reflexivity]]].
  apply Forall_forall. intros info Hin.
  destruct (Hfrom info Hin) as (r & _ & Hpos & ->).
  unfold info_of. cbn [contacts].
  destruct (Z.to_nat (count (target r))) as [| n] eqn:Hn; [lia |].
  cbn. discriminate.
Qed.

(** ** Native contacts *)

Lemma GetNativeContactsHelper_loop_returns (Heap : Type) (m1 m2 : option ModelID) :
  forall (refs : list (ContactRef Vector3d JointWrench double))
         (ret : list (NativeContactPtr Heap)) (p : Proc),
    Forall (fun r => models_and_links_set (target r) = true) refs ->
    GetNativeContactsHelper_loop m1 m2 refs ret p =
    Returns
      (ret ++ map native_of
                (filter (fun r => negb (skipped m1 m2 (model1_name (target r))
                                                      (model2_name (target r))))
                        refs),
       p).
Proof.
  induction refs as [| it rest IH]; intros ret p Hset.
  - cbn. now rewrite app_nil_r.
  - inversion Hset as [| ? ? Hit Hrest]; subst.
    destruct (all_set _ Hit) as (x1 & y1 & x2 & y2 & E1 & E2 & E3 & E4).
    cbn [GetNativeContactsHelper_loop map filter].
    unfold mbind at 1. rewrite E1. cbn [GZ_ASSERT_set mret].
    unfold mbind at 1. rewrite E2. cbn [GZ_ASSERT_set mret].
    unfold mbind at 1. rewrite E3. cbn [GZ_ASSERT_set mret].
    unfold mbind at 1. rewrite E4. cbn [GZ_ASSERT_set mret].
    unfold model1_name at 1, model2_name at 1. rewrite E1, E3. cbn [entity_name].
    destruct (skipped m1 m2 (GetName x1) (GetName x2)); cbn [negb].
    + now apply IH.
    + rewrite IH by assumption. unfold push_back.
      rewrite <- app_assoc. reflexivity.
Qed.

(** Releasing pointers that carry the null deleter changes no memory. *)
Lemma release_all_null (Heap : Type) :
  forall (sps : list (NativeContactPtr Heap)) (h : Heap),
    Forall (fun sp => deleter sp = null_deleter) sps -> release_all sps h = h.
Proof.
  induction sps as [| sp sps IH]; intros h Hnull; [reflexivity |].
  inversion Hnull as [| ? ? Hsp Hrest]; subst.
  unfold release_all. cbn [fold_left]. unfold release at 2. rewrite Hsp.
  unfold null_deleter at 1. now apply IH.
Qed.

(** C7.  When the contact manager can be read, either overload of
    [GetNativeContacts] returns, without changing the process image, one
    shared pointer for each wanted record, holding the record's address;
    every one of them carries [null_deleter], so releasing any of the
    returned pointers, in any order and any number of them, leaves the
    simulator's memory exactly as it was. *)
Theorem GetNativeContacts_never_owns :
  forall (Heap : Type) (q : Overload) (self : GazeboPhysicsWorld) (p : Proc) (w : W)
         (refs : list (ContactRef Vector3d JointWrench double)),
    contacts_readable self p w refs ->
    exists res,
      GetNativeContacts_of Heap q self p = Returns (res, p) /\
      map get res = map address (filter (fun r => wanted q (target r)) refs) /\
      Forall (fun sp => deleter sp = null_deleter) res /\
      forall (sps : list (NativeContactPtr Heap)) (h : Heap),
        incl sps res -> release_all sps h = h.
Proof.
  intros Heap q self p w refs (a & engine & Ha & Hw & He & Hcm & Hset).
  assert (Hhelper :
            GetNativeContacts_of Heap q self p =
            GetNativeContactsHelper Heap (world self) (helper_m1 q) (helper_m2 q) p)
    by now destruct q.
  rewrite Hhelper, Ha. unfold GetNativeContactsHelper.
  unfold mbind at 1. rewrite (read_world _ _ _ _ Hw), He.
  cbn [arrow]. unfold mbind at 1. cbn [mret].
  unfold mbind at 1. rewrite Hcm. cbn [GZ_ASSERT_set mret GetContacts].
  rewrite (GetNativeContactsHelper_loop_returns Heap _ _ refs [] p Hset).
  cbn [app]. eexists. split; [reflexivity |].
  assert (Hnull : Forall (fun sp : NativeContactPtr Heap => deleter sp = null_deleter)
                    (map native_of
                       (filter (fun r => negb (skipped (helper_m1 q) (helper_m2 q)
                                                 (model1_name (target r))
                                                 (model2_name (target r))))
                               refs))).
  { apply Forall_forall. intros sp Hin. apply in_map_iff in Hin.
    now destruct Hin as (r & <- & _). }
  split; [| split; [exact Hnull |]].
  - rewrite map_map. cbn [native_of get]. f_equal.
    apply filter_ext. intros r. now rewrite skipped_wanted, negb_involutive.
  - intros sps h Hincl. apply release_all_null.
    rewrite Forall_forall in Hnull |- *. intros sp Hin. apply Hnull. now apply Hincl.
Qed.

End Properties.

(** * The statements on the small simulator *)

Lemma small_world_readable (is_paused : bool) (cs : list (physics_Contact Vec3 Z Z)) :
  forallb (fun c => models_and_links_set c) cs = true ->
  contacts_readable (adaptor_on_1 is_paused) (process_with (world_with false cs))
                    (world_with false cs) (at_addresses 100 cs).
Proof.
  intros Hcs. exists 1%positive. eexists.
  repeat split; try reflexivity.
  generalize 100%positive. revert Hcs.
  induction cs as [| c cs IH]; intros Hcs from; cbn [at_addresses]; constructor.
  - cbn [target]. cbn [forallb] in Hcs. now apply andb_true_iff in Hcs.
  - apply IH. cbn [forallb] in Hcs. now apply andb_true_iff in Hcs.
Defined.

(** C9 on the small simulator: with the adaptor's flag set, [Update(3,
    false)] leaves the running world alone. *)
Lemma Update_held_back_example :
  Update 3 false (adaptor_on_1 true) (process_with (world_with false [])) =
  Returns (tt, process_with (world_with false [])).
Proof.
  exact (proj1 (proj2 (SetPaused_is_local_and_gates_Update
                         true 3 (adaptor_on_1 true)
                         (process_with (world_with false []))))
               eq_refl).
Defined.



(** C6 on the small simulator, where states are integers, minus is
    subtraction and applying a difference is addition. *)
Lemma GetWorldStateDiff_example :
  exists diff,
    GetWorldStateDiff Z.sub 50%Z (adaptor_on_1 false) (process_with (world_with false [])) =
    Returns (diff, process_with (world_with false [])) /\
    diff = 10%Z /\ (diff + 40 = 50)%Z.
Proof.
  destruct (GetWorldStateDiff_is_other_minus_current
              Z.sub 50%Z (adaptor_on_1 false) (process_with (world_with false []))
              1%positive (world_with false []) eq_refl eq_refl)
    as (diff & Hrun & _ & Hdiff & Happly).
  exists diff. split; [exact Hrun |]. split; [exact Hdiff |].
  apply (Happly Z.add). intros x y. apply Z.sub_add.
Defined.

(** C8 on the small simulator: a debug build whose comparison always fails
    still answers SUCCESS. *)
Lemma SetWorldState_example :
  exists p',
    SetWorldState true (fun _ _ _ => false) 5%Z true
                  (adaptor_on_1 false) (process_with (world_with false [])) =
    Returns (SUCCESS, p') /\
    history p' = [(1%positive, Apply_WorldState 5%Z)].
Proof.
  destruct (proj2 (SetWorldState_always_SUCCESS
                     true (fun _ _ _ => false) 5%Z true
                     (adaptor_on_1 false) (process_with (world_with false [])))
                  1%positive (world_with false []) eq_refl eq_refl)
    as (p' & Hrun & _ & Hhist).
  exists p'. split; [exact Hrun | exact Hhist].
Defined.

(** C2: the claim as stated fails at the null pointer, which [SetWorld]
    follows before it could return anything. *)
Lemma SetWorld_null_pointer_aborts :
  SetWorld (fun ptr => ptr) None (new_GazeboPhysicsWorld false)
           (process_with (world_with true [])) =
  Aborts NullDereference.
Proof. reflexivity. Qed.

(** C2 on the small simulator. *)
Lemma SetWorld_example :
  exists self' p',
    SetWorld (fun ptr => ptr) (Some 1%positive) (new_GazeboPhysicsWorld false)
             (process_with (world_with false [])) =
    Returns ((REFERENCED, self'), p') /\
    GetWorld (fun ptr => ptr) self' p' = Returns (Some 1%positive, p').
Proof.
  destruct (SetWorld_references_the_given_world
              (GW := SimpleWorld_GazeboWorld)
              (fun ptr => ptr) (fun ptr => ptr) (new_GazeboPhysicsWorld false)
              (process_with (world_with false [])) 1%positive (world_with false [])
              {| GetContactManager := Some {| GetContacts := [] |} |}
              {| GetContacts := [] |}
              (fun _ => eq_refl) (fun _ => eq_refl) eq_refl eq_refl eq_refl)
    as (_ & _ & self' & p' & Hset & Hget & _).
  exists self', p'. split; [exact Hset | exact Hget].
Defined.

(** C1: the claim as stated fails on a record without contact points.  The
    manager of the small world holds a record between "box" and "ground",
    yet neither overload returns an entry for it. *)
Lemma GetContactInfo_omits_record_without_points :
  let self := adaptor_on_1 false in
  let p := process_with (world_with false [box_on_ground 0]) in
  map target (at_addresses 100 [box_on_ground 0]) = [box_on_ground 0] /\
  between "box" "ground" (box_on_ground 0) = true /\
  GetContactInfo_between "box" "ground" self p =
    Returns ([], with_cerr p [consistency_message "default" "box" "ground"]) /\
  GetContactInfo self p =
    Returns ([], with_cerr p [consistency_message "default" "box" "ground"]).
Proof.
  cbv zeta. split; [reflexivity |]. split; [reflexivity |].
  split; vm_compute; reflexivity.
Qed.

(** C1 on the small simulator: of the three records, the two overloads
    return two entries and one entry. *)
Lemma GetContactInfo_example :
  (exists p',
      GetContactInfo_between "ground" "box" (adaptor_on_1 false)
                             (process_with (world_with false three_records)) =
      Returns ([info_of (box_on_ground 2)], p')) /\
  (exists p',
      GetContactInfo (adaptor_on_1 false)
                     (process_with (world_with false three_records)) =
      Returns ([info_of ball_on_ground; info_of (box_on_ground 2)], p')).
Proof.
  destruct (GetContactInfo_returns_wanted_records_with_points
              "ground" "box" (adaptor_on_1 false)
              (process_with (world_with false three_records))
              (world_with false three_records) (at_addresses 100 three_records)
              (small_world_readable false three_records eq_refl))
    as (Hbetween & Hall & _).
  split; [exact Hbetween | exact Hall].
Defined.

(** C4 on the small simulator: the entry of the record with two points. *)
Lemma GetContactInfo_copies_example :
  exists res p',
    GetContactInfo_of (Between "box" "ground") (adaptor_on_1 false)
                      (process_with (world_with false three_records)) =
    Returns (res, p') /\
    exists info,
      In info res /\ model1 info = "box" /\ modelPart1 info = "link" /\
      model2 info = "ground" /\ modelPart2 info = "plane" /\
      contacts info =
        [ {| position := (0, 0, 0)%Z; normal := (0, 0, 1)%Z;
             contact_wrench := 0%Z; depth := 0%Z |};
          {| position := (0, 0, 1)%Z; normal := (0, 0, 1)%Z;
             contact_wrench := 1%Z; depth := 10%Z |} ].
Proof.
  destruct (GetContactInfo_copies_fields
              (Between "box" "ground") (adaptor_on_1 false)
              (process_with (world_with false three_records))
              (world_with false three_records) (at_addresses 100 three_records)
              (small_world_readable false three_records eq_refl))
    as (res & p' & Hrun & _ & Hhas).
  exists res, p'. split; [exact Hrun |].
  destruct (Hhas {| address := 102%positive; target := box_on_ground 2 |})
    as (info & Hin & Hm1 & Hp1 & Hm2 & Hp2 & Hlen & Hnth).
  - cbn. right. right. left. reflexivity.
  - reflexivity.
  - reflexivity.
  - cbn [target count box_on_ground] in Hlen, Hnth.
    pose proof (Hnth 0%nat eq_refl) as H0. pose proof (Hnth 1%nat eq_refl) as H1.
    assert (Hl : List.length (contacts info) = 2%nat) by lia.
    exists info. split; [exact Hin |]. do 4 (split; [assumption |]).
    unfold Vec3 in *.
    destruct (contacts info) as [| c0 [| c1 [| c2 rest]]]; try discriminate Hl.
    cbn in H0, H1. injection H0 as ->. injection H1 as ->. reflexivity.
Defined.

(** C10 on the small simulator: one diagnostic for the record without
    points, and no empty entry. *)
Lemma GetContactInfo_never_empty_example :
  exists res p',
    GetContactInfo_of AllModels (adaptor_on_1 false)
                      (process_with (world_with false three_records)) =
    Returns (res, p') /\
    Forall (fun info => contacts info <> []) res /\
    List.length res = 2%nat /\
    cerr p' = [consistency_message "default" "box" "ground"].
Proof.
  destruct (GetContactInfo_entries_never_empty
              AllModels (adaptor_on_1 false)
              (process_with (world_with false three_records))
              (world_with false three_records) (at_addresses 100 three_records)
              (small_world_readable false three_records eq_refl))
    as (res & p' & Hrun & Hfull & _ & Hlen & Herr).
  exists res, p'. repeat split; assumption.
Defined.

(** C7 on the small simulator, whose memory is the list of the addresses in
    use: the two pointers between "box" and "ground" are released and the
    memory is as before. *)
Lemma GetNativeContacts_example :
  exists res,
    GetNativeContacts_of (list addr) (Between "box" "ground") (adaptor_on_1 false)
                         (process_with (world_with false three_records)) =
    Returns (res, process_with (world_with false three_records)) /\
    map get res = [100%positive; 102%positive] /\
    release_all res [100%positive; 101%positive; 102%positive] =
    [100%positive; 101%positive; 102%positive].
Proof.
  destruct (GetNativeContacts_never_owns
              (list addr) (Between "box" "ground") (adaptor_on_1 false)
              (process_with (world_with false three_records))
              (world_with false three_records) (at_addresses 100 three_records)
              (small_world_readable false three_records eq_refl))
    as (res & Hrun & Hget & _ & Hrelease).
  exists res. split; [exact Hrun |]. split; [exact Hget |].
  apply Hrelease. apply incl_refl.
Defined.

(** * The static tests *)

(** C5: the claim as stated fails: no test compares a world that runs
    Simbody. *)
Lemma TwoShapesTest1_has_no_simbody_world :
  ~ (forall e, In e all_engines ->
               exists m1 m2 ws,
                 In (m1, m2, ws) (comparisons (run_test TwoShapesTest1)) /\
                 In e (map engine_name ws)).
Proof.
  intros Hall.
  destruct (Hall "simbody") as (m1 & m2 & ws & Hcmp & Hin).
  - cbn. tauto.
  - cbn in Hcmp. destruct Hcmp as [Heq | []].
    inversion Heq; subst. cbn in Hin.
    repeat (destruct Hin as [Hin | Hin]; [discriminate Hin |]). exact Hin.
Qed.

(** C5, as amended.  Every static test selects the three engines Bullet, ODE
    and DART, and not Simbody; it makes one comparison, between the two
    models it loaded, and at that point there is one world per selected
    engine and every world holds the same two models, loaded in the same
    order. *)
Theorem static_tests_load_same_pair_into_three_worlds :
  selectedEngines = ["bullet"; "ode"; "dart"] /\
  ~ In "simbody" selectedEngines /\
  Forall
    (fun test =>
       exists m1 m2 shape1 shape2 ws,
         comparisons (run_test test) = [(m1, m2, ws)] /\
         map engine_name ws = selectedEngines /\
         Forall (fun w => loaded w = [(m1, shape1); (m2, shape2)]) ws)
    static_tests.
Proof.
  split; [reflexivity |]. split.
  - cbn. intros H. repeat (destruct H as [H | H]; [discriminate H |]). exact H.
  - repeat constructor; do 5 eexists; (split; [reflexivity |]);
      (split; [reflexivity |]); repeat constructor.
Qed.

(** * Further properties of the adaptor *)

Section MoreProperties.

Context {Vector3d JointWrench double WorldState : Type}.
Context {W : Type} {GW : GazeboWorld Vector3d JointWrench double WorldState W}.

Local Abbreviation Proc := (Process WorldState W).

(** ** The model filter of the contact queries *)

(** The loops depend on the two optional model arguments only through the
    test [skipped]. *)
Lemma GetContactInfoHelper_loop_ext (world : WorldPtr) (m1 m2 n1 n2 : option ModelID) :
  (forall a b, skipped m1 m2 a b = skipped n1 n2 a b) ->
  forall (refs : list (ContactRef Vector3d JointWrench double))
         (ret : list (ContactInfo Vector3d JointWrench double)) (p : Proc),
    GetContactInfoHelper_loop world m1 m2 refs ret p =
    GetContactInfoHelper_loop world n1 n2 refs ret p.
Proof.
  intros Hext. induction refs as [| it rest IH]; intros ret p; [reflexivity |].
  cbn [GetContactInfoHelper_loop]. unfold mbind.
  destruct (GetModel (collision1 (target it))) as [x1 |]; [| reflexivity].
  destruct (GetLink (collision1 (target it))) as [y1 |]; [| reflexivity].
  destruct (GetModel (collision2 (target it))) as [x2 |]; [| reflexivity].
  destruct (GetLink (collision2 (target it))) as [y2 |]; [| reflexivity].
  cbn [GZ_ASSERT_set mret]. rewrite Hext.
  destruct (skipped n1 n2 (GetName x1) (GetName x2)); [apply IH |].
  destruct (contacts _) as [| c cs]; [| apply IH].
  destruct (read world _ p) as [[worldName p1] | f]; [| reflexivity].
  unfold print_cerr. apply IH.
Qed.

Lemma GetNativeContactsHelper_loop_ext (Heap : Type) (m1 m2 n1 n2 : option ModelID) :
  (forall a b, skipped m1 m2 a b = skipped n1 n2 a b) ->
  forall (refs : list (ContactRef Vector3d JointWrench double))
         (ret : list (NativeContactPtr Heap)) (p : Proc),
    GetNativeContactsHelper_loop m1 m2 refs ret p =
    GetNativeContactsHelper_loop n1 n2 refs ret p.
Proof.
  intros Hext. induction refs as [| it rest IH]; intros ret p; [reflexivity |].
  cbn [GetNativeContactsHelper_loop]. unfold mbind.
  destruct (GetModel (collision1 (target it))) as [x1 |]; [| reflexivity].
  destruct (GetLink (collision1 (target it))) as [y1 |]; [| reflexivity].
  destruct (GetModel (collision2 (target it))) as [x2 |]; [| reflexivity].
  destruct (GetLink (collision2 (target it))) as [y2 |]; [| reflexivity].
  cbn [GZ_ASSERT_set mret]. rewrite Hext.
  destruct (skipped n1 n2 (GetName x1) (GetName x2)); apply IH.
Qed.

Lemma GetContactInfoHelper_ext (world : WorldPtr) (m1 m2 n1 n2 : option ModelID) (p : Proc) :
  (forall a b, skipped m1 m2 a b = skipped n1 n2 a b) ->
  GetContactInfoHelper (Vector3d := Vector3d) (JointWrench := JointWrench)
                       (double := double) world m1 m2 p =
  GetContactInfoHelper world n1 n2 p.
Proof.
  intros Hext. unfold GetContactInfoHelper, mbind.
  destruct (read world _ p) as [[engine p1] | f]; [| reflexivity].
  destruct (arrow engine p1) as [[physics p2] | f]; [| reflexivity].
  destruct (GZ_ASSERT_set _ _ p2) as [[cm p3] | f]; [| reflexivity].
  now apply GetContactInfoHelper_loop_ext.
Qed.

Lemma GetNativeContactsHelper_ext (Heap : Type) (world : WorldPtr)
    (m1 m2 n1 n2 : option ModelID) (p : Proc) :
  (forall a b, skipped m1 m2 a b = skipped n1 n2 a b) ->
  GetNativeContactsHelper (Vector3d := Vector3d) (JointWrench := JointWrench)
                          (double := double) Heap world m1 m2 p =
  GetNativeContactsHelper Heap world n1 n2 p.
Proof.
  intros Hext. unfold GetNativeContactsHelper, mbind.
  destruct (read world _ p) as [[engine p1] | f]; [| reflexivity].
  destruct (arrow engine p1) as [[physics p2] | f]; [| reflexivity].
  destruct (GZ_ASSERT_set _ _ p2) as [[cm p3] | f]; [| reflexivity].
  now apply GetNativeContactsHelper_loop_ext.
Qed.

Lemma skipped_swap (m1 m2 : ModelID) (a b : string) :
  skipped (Some m1) (Some m2) a b = skipped (Some m2) (Some m1) a b.
Proof.
  unfold skipped.
  now destruct (m1 =? a), (m2 =? b), (m1 =? b), (m2 =? a).
Qed.

(** X1.  [GetContactInfo(m1, m2)] and [GetContactInfo(m2, m1)] are the same
    call: the same entries in the same order, the same diagnostics, the same
    failure if there is one, in every state of the process. *)
Theorem GetContactInfo_between_symmetric :
  forall (m1 m2 : ModelID) (self : GazeboPhysicsWorld) (p : Proc),
    GetContactInfo_between (Vector3d := Vector3d) (JointWrench := JointWrench)
                           (double := double) m1 m2 self p =
    GetContactInfo_between m2 m1 self p.
Proof.
  intros m1 m2 self p. unfold GetContactInfo_between.
  apply GetContactInfoHelper_ext. intros a b. apply skipped_swap.
Qed.

(** X2.  [GetNativeContacts(m1, m2)] and [GetNativeContacts(m2, m1)] return
    the same pointers in the same order, or fail alike. *)
Theorem GetNativeContacts_between_symmetric :
  forall (Heap : Type) (m1 m2 : ModelID) (self : GazeboPhysicsWorld) (p : Proc),
    GetNativeContacts_between (Vector3d := Vector3d) (JointWrench := JointWrench)
                              (double := double) Heap m1 m2 self p =
    GetNativeContacts_between Heap m2 m1 self p.
Proof.
  intros Heap m1 m2 self p. unfold GetNativeContacts_between.
  apply GetNativeContactsHelper_ext. intros a b. apply skipped_swap.
Qed.

(** The helper with any optional arguments, when the contact manager can be
    read. *)
Lemma GetContactInfoHelper_returns (m1 m2 : option ModelID) (self : GazeboPhysicsWorld)
    (p : Proc) (w : W) (refs : list (ContactRef Vector3d JointWrench double)) :
  contacts_readable self p w refs ->
  GetContactInfoHelper (world self) m1 m2 p =
  Returns
    (map info_of
         (filter (fun c => negb (skipped m1 m2 (model1_name c) (model2_name c))
                           && has_points c)
                 (map target refs)),
     with_cerr p
       (map (diagnostic w)
            (filter (fun c => negb (skipped m1 m2 (model1_name c) (model2_name c))
                              && negb (has_points c))
                    (map target refs)))).
Proof.
  intros (a & engine & Ha & Hw & He & Hcm & Hset).
  rewrite Ha. unfold GetContactInfoHelper.
  unfold mbind at 1. rewrite (read_world _ _ _ _ Hw), He.
  cbn [arrow]. unfold mbind at 1. cbn [mret].
  unfold mbind at 1. rewrite Hcm. cbn [GZ_ASSERT_set mret GetContacts].
  now rewrite (GetContactInfoHelper_loop_returns a w m1 m2 refs [] p Hw Hset).
Qed.

(** X3.  The optional arguments of [GetContactInfoHelper].  With only [m1]
    given, the helper returns the entries of the records with points in which
    [m1] is the first or the second model, whatever the other model is.  With
    only [m2] given, [m2] is ignored: the call is the call without any model,
    in every state of the process. *)
Theorem GetContactInfoHelper_optional_models :
  forall (m : ModelID) (self : GazeboPhysicsWorld) (p : Proc) (w : W)
         (refs : list (ContactRef Vector3d JointWrench double)),
    contacts_readable self p w refs ->
    (exists p',
        GetContactInfoHelper (world self) (Some m) None p =
        Returns (map info_of
                   (filter (fun c => ((m =? model1_name c) || (m =? model2_name c))
                                     && has_points c)
                           (map target refs)),
                 p')) /\
    (forall (ptr : WorldPtr) (p0 : Proc),
        GetContactInfoHelper (Vector3d := Vector3d) (JointWrench := JointWrench)
                             (double := double) ptr None (Some m) p0 =
        GetContactInfoHelper ptr None None p0).
Proof.
  intros m self p w refs Hread. split.
  - rewrite (GetContactInfoHelper_returns (Some m) None self p w refs Hread).
    eexists. f_equal. f_equal. f_equal. apply filter_ext. intros c.
    cbn [skipped]. now rewrite negb_andb, !negb_involutive.
  - intros ptr p0. now apply GetContactInfoHelper_ext.
Qed.

(** ** What the contact queries leave alone *)

Lemma read_same {X : Type} (world : WorldPtr) (f : W -> X) (p p1 : Proc) (x : X) :
  read world f p = Returns (x, p1) -> p1 = p.
Proof.
  unfold read, mbind, mret, follow.
  destruct world as [a |]; [| discriminate].
  destruct (worlds p a) as [w |]; [| discriminate]. congruence.
Qed.

Lemma GetContactInfoHelper_loop_frame (world : WorldPtr) (m1 m2 : option ModelID) :
  forall (refs : list (ContactRef Vector3d JointWrench double))
         (ret res : list (ContactInfo Vector3d JointWrench double)) (p p' : Proc),
    GetContactInfoHelper_loop world m1 m2 refs ret p = Returns (res, p') ->
    worlds p' = worlds p /\ history p' = history p /\ cout p' = cout p /\
    printOnce p' = printOnce p /\ exists lines, cerr p' = cerr p ++ lines.
Proof.
  induction refs as [| it rest IH]; intros ret res p p'.
  - cbn. intros [= _ <-]. do 4 (split; [reflexivity |]).
    exists []. now rewrite app_nil_r.
  - cbn [GetContactInfoHelper_loop]. unfold mbind.
    destruct (GetModel (collision1 (target it))) as [x1 |]; [| discriminate].
    destruct (GetLink (collision1 (target it))) as [y1 |]; [| discriminate].
    destruct (GetModel (collision2 (target it))) as [x2 |]; [| discriminate].
    destruct (GetLink (collision2 (target it))) as [y2 |]; [| discriminate].
    cbn [GZ_ASSERT_set mret].
    destruct (skipped m1 m2 (GetName x1) (GetName x2)); [apply IH |].
    destruct (contacts _) as [| c cs]; [| apply IH].
    destruct (read world _ p) as [[worldName p1] | f] eqn:Hread; [| discriminate].
    apply read_same in Hread. subst p1. unfold print_cerr. intros Hrun.
    apply IH in Hrun. cbn [worlds history cout cerr printOnce] in Hrun.
    destruct Hrun as (H1 & H2 & H3 & H4 & lines & H5).
    unfold push_back in H5. rewrite <- app_assoc in H5.
    split; [exact H1 |]. split; [exact H2 |]. split; [exact H3 |].
    split; [exact H4 |]. eexists. exact H5.
Qed.

(** X4.  Both overloads of [GetContactInfo] are read-only: whenever one
    returns, the worlds of the simulator, the calls they received, [cout] and
    the flag of [Update] are as before; only [cerr] may have grown. *)
Theorem GetContactInfo_is_read_only :
  forall (q : Overload) (self : GazeboPhysicsWorld) (p p' : Proc)
         (res : list (ContactInfo Vector3d JointWrench double)),
    GetContactInfo_of q self p = Returns (res, p') ->
    worlds p' = worlds p /\ history p' = history p /\ cout p' = cout p /\
    printOnce p' = printOnce p /\ exists lines, cerr p' = cerr p ++ lines.
Proof.
  intros q self p p' res.
  assert (Hhelper :
            GetContactInfo_of q self p =
            GetContactInfoHelper (world self) (helper_m1 q) (helper_m2 q) p)
    by now destruct q.
  rewrite Hhelper. unfold GetContactInfoHelper, mbind.
  destruct (read (world self) _ p) as [[engine p1] | f] eqn:Hread; [| discriminate].
  apply read_same in Hread. subst p1.
  destruct engine as [physics |]; cbn [arrow mret abort]; [| discriminate].
  destruct (GetContactManager physics) as [cm |]; cbn [GZ_ASSERT_set mret abort];
    [| discriminate].
  apply GetContactInfoHelper_loop_frame.
Qed.

(** ** When the contact queries fail *)

Lemma all_set_true (c : physics_Contact Vector3d JointWrench double)
    (x1 y1 x2 y2 : Entity) :
  GetModel (collision1 c) = Some x1 -> GetLink (collision1 c) = Some y1 ->
  GetModel (collision2 c) = Some x2 -> GetLink (collision2 c) = Some y2 ->
  models_and_links_set c = true.
Proof. unfold models_and_links_set. now intros -> -> -> ->. Qed.

Lemma GetContactInfoHelper_loop_aborts (a : addr) (w : W) (m1 m2 : option ModelID) :
  forall (refs : list (ContactRef Vector3d JointWrench double))
         (ret : list (ContactInfo Vector3d JointWrench double)) (p : Proc),
    worlds p a = Some w ->
    Exists (fun r => models_and_links_set (target r) = false) refs ->
    exists msg,
      GetContactInfoHelper_loop (Some a) m1 m2 refs ret p = Aborts (AssertionFailed msg) /\
      In msg record_assertions.
Proof.
  induction refs as [| it rest IH]; intros ret p Hw Hbad.
  - inversion Hbad.
  - cbn [GetContactInfoHelper_loop]. unfold mbind at 1.
    destruct (GetModel (collision1 (target it))) as [x1 |] eqn:E1;
      [| eexists; split; [reflexivity | cbn; tauto]].
    cbn [GZ_ASSERT_set mret]. unfold mbind at 1.
    destruct (GetLink (collision1 (target it))) as [y1 |] eqn:E2;
      [| eexists; split; [reflexivity | cbn; tauto]].
    cbn [GZ_ASSERT_set mret]. unfold mbind at 1.
    destruct (GetModel (collision2 (target it))) as [x2 |] eqn:E3;
      [| eexists; split; [reflexivity | cbn; tauto]].
    cbn [GZ_ASSERT_set mret]. unfold mbind at 1.
    destruct (GetLink (collision2 (target it))) as [y2 |] eqn:E4;
      [| eexists; split; [reflexivity | cbn; tauto]].
    cbn [GZ_ASSERT_set mret].
    apply Exists_cons in Hbad. destruct Hbad as [Hit | Hrest].
    { rewrite (all_set_true _ _ _ _ _ E1 E2 E3 E4) in Hit. discriminate. }
    destruct (skipped m1 m2 (GetName x1) (GetName x2)); [now apply IH |].
    destruct (contacts _) as [| c cs]; [| now apply IH].
    unfold mbind at 1. rewrite (read_world _ _ _ _ Hw).
    unfold mbind at 1. unfold print_cerr at 1. now apply IH.
Qed.

Lemma GetNativeContactsHelper_loop_aborts (Heap : Type) (m1 m2 : option ModelID) :
  forall (refs : list (ContactRef Vector3d JointWrench double))
         (ret : list (NativeContactPtr Heap)) (p : Proc),
    Exists (fun r => models_and_links_set (target r) = false) refs ->
    exists msg,
      GetNativeContactsHelper_loop m1 m2 refs ret p = Aborts (AssertionFailed msg) /\
      In msg record_assertions.
Proof.
  induction refs as [| it rest IH]; intros ret p Hbad.
  - inversion Hbad.
  - cbn [GetNativeContactsHelper_loop]. unfold mbind at 1.
    destruct (GetModel (collision1 (target it))) as [x1 |] eqn:E1;
      [| eexists; split; [reflexivity | cbn; tauto]].
    cbn [GZ_ASSERT_set mret]. unfold mbind at 1.
    destruct (GetLink (collision1 (target it))) as [y1 |] eqn:E2;
      [| eexists; split; [reflexivity | cbn; tauto]].
    cbn [GZ_ASSERT_set mret]. unfold mbind at 1.
    destruct (GetModel (collision2 (target it))) as [x2 |] eqn:E3;
      [| eexists; split; [reflexivity | cbn; tauto]].
    cbn [GZ_ASSERT_set mret]. unfold mbind at 1.
    destruct (GetLink (collision2 (target it))) as [y2 |] eqn:E4;
      [| eexists; split; [reflexivity | cbn; tauto]].
    cbn [GZ_ASSERT_set mret].
    apply Exists_cons in Hbad. destruct Hbad as [Hit | Hrest].
    { rewrite (all_set_true _ _ _ _ _ E1 E2 E3 E4) in Hit. discriminate. }
    destruct (skipped m1 m2 (GetName x1) (GetName x2)); now apply IH.
Qed.

(** X5.  One record of the contact manager in which a collision has no
    model makes every contact query fail, whatever the model filter is and
    whether or not the record could be between the requested models: the
    names of the two models are asked for before the filter, and no partial
    result is returned.  (The failure is one of the four assertions on a
    record; in a build without assertions it is the null model pointer.) *)
Theorem one_unset_record_fails_every_query :
  forall (Heap : Type) (q : Overload) (self : GazeboPhysicsWorld) (p : Proc)
         (a : addr) (w : W) (engine : PhysicsEngine Vector3d JointWrench double)
         (refs : list (ContactRef Vector3d JointWrench double)),
    world self = Some a -> worlds p a = Some w ->
    Physics w = Some engine ->
    GetContactManager engine = Some {| GetContacts := refs |} ->
    Exists (fun r => GetModel (collision1 (target r)) = None \/
                     GetModel (collision2 (target r)) = None) refs ->
    (exists msg,
        GetContactInfo_of q self p = Aborts (AssertionFailed msg) /\
        In msg record_assertions) /\
    (exists msg,
        GetNativeContacts_of Heap q self p = Aborts (AssertionFailed msg) /\
        In msg record_assertions).
Proof.
  intros Heap q self p a w engine refs Ha Hw He Hcm Hmodel.
  assert (Hbad : Exists (fun r => models_and_links_set (target r) = false) refs).
  { apply Exists_exists in Hmodel. destruct Hmodel as (r & Hin & Hnone).
    apply Exists_exists. exists r. split; [exact Hin |].
    unfold models_and_links_set.
    destruct Hnone as [-> | ->]; cbn [is_set andb]; [reflexivity |].
    now rewrite !andb_false_r. }
  split.
  - assert (Hhelper :
              GetContactInfo_of q self p =
              GetContactInfoHelper (world self) (helper_m1 q) (helper_m2 q) p)
      by now destruct q.
    rewrite Hhelper, Ha. unfold GetContactInfoHelper.
    unfold mbind at 1. rewrite (read_world _ _ _ _ Hw), He.
    cbn [arrow]. unfold mbind at 1. cbn [mret].
    unfold mbind at 1. rewrite Hcm. cbn [GZ_ASSERT_set mret GetContacts].
    now apply (GetContactInfoHelper_loop_aborts a w).
  - assert (Hhelper :
              GetNativeContacts_of Heap q self p =
              GetNativeContactsHelper Heap (world self) (helper_m1 q) (helper_m2 q) p)
      by now destruct q.
    rewrite Hhelper, Ha. unfold GetNativeContactsHelper.
    unfold mbind at 1. rewrite (read_world _ _ _ _ Hw), He.
    cbn [arrow]. unfold mbind at 1. cbn [mret].
    unfold mbind at 1. rewrite Hcm. cbn [GZ_ASSERT_set mret GetContacts].
    now apply GetNativeContactsHelper_loop_aborts.
Qed.


(** ** Every wanted record is accounted for *)

Lemma GetNativeContacts_of_returns (Heap : Type) (q : Overload)
    (self : GazeboPhysicsWorld) (p : Proc) (w : W)
    (refs : list (ContactRef Vector3d JointWrench double)) :
  contacts_readable self p w refs ->
  GetNativeContacts_of Heap q self p =
  Returns (map native_of (filter (fun r => wanted q (target r)) refs), p).
Proof.
  intros (a & engine & Ha & Hw & He & Hcm & Hset).
  assert (Hhelper :
            GetNativeContacts_of Heap q self p =
            GetNativeContactsHelper Heap (world self) (helper_m1 q) (helper_m2 q) p)
    by now destruct q.
  rewrite Hhelper, Ha. unfold GetNativeContactsHelper.
  unfold mbind at 1. rewrite (read_world _ _ _ _ Hw), He.
  cbn [arrow]. unfold mbind at 1. cbn [mret].
  unfold mbind at 1. rewrite Hcm. cbn [GZ_ASSERT_set mret GetContacts].
  rewrite (GetNativeContactsHelper_loop_returns Heap _ _ refs [] p Hset).
  cbn [app]. f_equal. f_equal. f_equal.
  apply filter_ext. intros r. now rewrite skipped_wanted, negb_involutive.
Qed.

Lemma filter_split_length {A B : Type} (f : A -> B) (keep pts : B -> bool) (l : list A) :
  (List.length (filter (fun c => keep c && pts c) (map f l)) +
   List.length (filter (fun c => keep c && negb (pts c)) (map f l)))%nat =
  List.length (filter (fun r => keep (f r)) l).
Proof.
  induction l as [| x l IH]; [reflexivity |].
  cbn [map filter]. destruct (keep (f x)), (pts (f x)); cbn [andb negb List.length]; lia.
Qed.

(** X7.  The two queries agree on what there is: when the contact manager
    can be read, [GetNativeContacts] returns one pointer for every wanted
    record, with or without contact points, and each of these records shows
    in [GetContactInfo] either as an entry or as a line on [cerr], never as
    both and never as neither. *)
Theorem every_wanted_record_is_entry_or_diagnostic :
  forall (Heap : Type) (q : Overload) (self : GazeboPhysicsWorld) (p : Proc) (w : W)
         (refs : list (ContactRef Vector3d JointWrench double)),
    contacts_readable self p w refs ->
    exists infos p1 natives lines,
      GetContactInfo_of q self p = Returns (infos, p1) /\
      GetNativeContacts_of Heap q self p = Returns (natives, p) /\
      cerr p1 = cerr p ++ lines /\
      (List.length infos + List.length lines)%nat = List.length natives /\
      List.length natives = List.length (filter (fun r => wanted q (target r)) refs).
Proof.
  intros Heap q self p w refs Hread.
  rewrite (GetContactInfo_of_returns q self p w refs Hread).
  rewrite (GetNativeContacts_of_returns Heap q self p w refs Hread).
  do 4 eexists. split; [reflexivity |]. split; [reflexivity |].
  split; [reflexivity |]. rewrite !length_map. split; [| reflexivity].
  apply filter_split_length.
Qed.

Lemma readable_after_cerr (self : GazeboPhysicsWorld) (p : Proc) (w : W)
    (refs : list (ContactRef Vector3d JointWrench double)) (lines : list string) :
  contacts_readable self p w refs -> contacts_readable self (with_cerr p lines) w refs.
Proof.
  intros (a & engine & Ha & Hw & He & Hcm & Hset). now exists a, engine.
Qed.

(** X14.  Unlike the warning of [Update], the diagnostics of
    [GetContactInfo] are not printed once only: when the contact manager can
    be read, asking again returns the same entries and appends the same
    lines to [cerr] a second time. *)
Theorem GetContactInfo_again_repeats_diagnostics :
  forall (q : Overload) (self : GazeboPhysicsWorld) (p : Proc) (w : W)
         (refs : list (ContactRef Vector3d JointWrench double)),
    contacts_readable self p w refs ->
    exists res p1 p2 lines,
      GetContactInfo_of q self p = Returns (res, p1) /\
      GetContactInfo_of q self p1 = Returns (res, p2) /\
      cerr p1 = cerr p ++ lines /\
      cerr p2 = cerr p ++ lines ++ lines /\
      List.length lines =
        List.length (filter (fun c => wanted q c && negb (has_points c))
                            (map target refs)).
Proof.
  intros q self p w refs Hread.
  pose proof (GetContactInfo_of_returns q self p w refs Hread) as Hfirst.
  set (lines := map (diagnostic w)
                    (filter (fun c => wanted q c && negb (has_points c))
                            (map target refs))) in *.
  pose proof (GetContactInfo_of_returns q self (with_cerr p lines) w refs
                (readable_after_cerr self p w refs lines Hread)) as Hsecond.
  fold lines in Hsecond.
  do 4 eexists. split; [exact Hfirst |]. split; [exact Hsecond |].
  cbn [with_cerr cerr]. split; [reflexivity |].
  split; [now rewrite <- app_assoc | apply length_map].
Qed.

(** ** The warning of [Update] *)

Lemma invoke_keeps_streams (world : WorldPtr) (c : WorldCall WorldState) (p p' : Proc) :
  invoke world c p = Returns (tt, p') ->
  cout p' = cout p /\ cerr p' = cerr p /\ printOnce p' = printOnce p.
Proof.
  unfold invoke, mbind, follow.
  destruct world as [a |]; [| discriminate].
  destruct (worlds p a) as [w |]; [| discriminate].
  intros [= <-]. now repeat split.
Qed.

(** X8.  The warning about a running world is printed at most once in the
    life of the process: an [Update] that returns adds either nothing to
    [cout], or the warning alone, and the latter only if no [Update] printed
    it before; once printed, no [Update] prints it again.  Nothing is ever
    written to [cerr]. *)
Theorem Update_warns_at_most_once :
  forall (steps : Z) (force : bool) (self : GazeboPhysicsWorld) (p p' : Proc),
    Update steps force self p = Returns (tt, p') ->
    cerr p' = cerr p /\
    (printOnce p = false -> cout p' = cout p /\ printOnce p' = false) /\
    (cout p' = cout p /\ printOnce p' = printOnce p \/
     cout p' = cout p ++ [not_paused_warning] /\
     printOnce p = true /\ printOnce p' = false).
Proof.
  intros steps force self p p'. unfold Update, IsPaused. cbn [mbind mret].
  destruct (negb force && paused self).
  { intros [= <-]. split; [reflexivity |]. split; [now intros -> |]. now left. }
  unfold mbind at 1.
  destruct (read (world self) _ p) as [[worldPaused p1] | f] eqn:Hread; [| discriminate].
  apply read_same in Hread. subst p1.
  destruct worldPaused; cbn [negb].
  - unfold mbind, mret. intros Hstep.
    apply invoke_keeps_streams in Hstep. destruct Hstep as (Hout & Herr & Honce).
    split; [exact Herr |]. split; [intros Hp; now rewrite Hout, Honce |].
    left. now split.
  - unfold mbind, get_printOnce, print_cout, set_printOnce, mret.
    destruct (printOnce p) eqn:Hflag.
    + destruct (invoke _ (World_SetPaused true) _) as [[[] p2] | f] eqn:Hpause;
        [| discriminate].
      intros Hstep.
      apply invoke_keeps_streams in Hpause. apply invoke_keeps_streams in Hstep.
      cbn [cout cerr printOnce] in Hpause.
      destruct Hpause as (Ho2 & He2 & Hf2). destruct Hstep as (Ho & He & Hf).
      split; [congruence |]. split; [discriminate |]. right.
      unfold push_back in Ho2. repeat split; congruence.
    + destruct (invoke _ (World_SetPaused true) _) as [[[] p2] | f] eqn:Hpause;
        [| discriminate].
      intros Hstep.
      apply invoke_keeps_streams in Hpause. apply invoke_keeps_streams in Hstep.
      destruct Hpause as (Ho2 & He2 & Hf2). destruct Hstep as (Ho & He & Hf).
      split; [congruence |]. split; [intros _; split; congruence |].
      left. split; congruence.
Qed.

(** ** [SetWorld] and the methods after it *)

Lemma SetWorld_runs (to_boost_ptr : WorldPtr -> WorldPtr) (self : GazeboPhysicsWorld)
    (p : Proc) (a : addr) (w : W)
    (engine : PhysicsEngine Vector3d JointWrench double)
    (cm : ContactManager Vector3d JointWrench double) :
  to_boost_ptr (Some a) = Some a ->
  worlds p a = Some w -> Physics w = Some engine -> GetContactManager engine = Some cm ->
  exists p',
    SetWorld to_boost_ptr (Some a) self p =
    Returns ((REFERENCED,
              {| world := Some a;
                 enforceContactComputation := enforceContactComputation self;
                 paused := paused self |}), p') /\
    worlds p' a =
      Some (perform (Run 0)
             (perform (World_SetPaused true)
               (perform Stop
                 (perform (SetEnforceContacts (enforceContactComputation self)) w)))) /\
    history p' =
      history p ++
      [(a, SetEnforceContacts (enforceContactComputation self)); (a, Stop);
       (a, World_SetPaused true); (a, Run 0)] /\
    cout p' = cout p /\ cerr p' = cerr p /\ printOnce p' = printOnce p.
Proof.
  intros Hb Hw He Hcm.
  unfold SetWorld, SetEnforceContactsComputation, PostWorldLoaded.
  cbn [world enforceContactComputation paused]. rewrite Hb.
  unfold GZ_ASSERT, mbind.
  rewrite (read_world _ _ _ _ Hw), He, Hcm. unfold mret.
  rewrite (invoke_world _ _ _ _ Hw). cbn [world].
  erewrite invoke_world by (cbn; apply store_same).
  erewrite invoke_world by (cbn; apply store_same).
  erewrite invoke_world by (cbn; apply store_same).
  eexists. split; [reflexivity |]. cbn [worlds history cout cerr printOnce].
  split; [apply store_same |]. split; [now rewrite <- !app_assoc |]. now repeat split.
Qed.

(** X9.  [Update] right after [SetWorld].  Take a world whose engine and
    contact manager are set and which reports itself paused once it has been
    paused and run with [Run(0)].  After [SetWorld] on it, an [Update(steps,
    force)] that is not held back sends the world one [Step], with [steps]
    converted to [unsigned int] (so [steps] itself when [steps >= 0]), and
    nothing else (no [SetPaused], no warning on [cout]); and since [SetWorld]
    keeps the adaptor's own flag, on an adaptor that was paused before
    [SetWorld] an [Update(steps, false)] still does nothing. *)
Theorem Update_after_SetWorld :
  forall (to_boost_ptr : WorldPtr -> WorldPtr) (steps : Z) (force : bool)
         (self : GazeboPhysicsWorld) (p : Proc) (a : addr) (w : W)
         (engine : PhysicsEngine Vector3d JointWrench double)
         (cm : ContactManager Vector3d JointWrench double),
    to_boost_ptr (Some a) = Some a ->
    worlds p a = Some w -> Physics w = Some engine -> GetContactManager engine = Some cm ->
    (forall w0, World_IsPaused (perform (Run 0) (perform (World_SetPaused true) w0)) = true) ->
    exists self1 p1,
      SetWorld to_boost_ptr (Some a) self p = Returns ((REFERENCED, self1), p1) /\
      IsPaused self1 p1 = Returns (paused self, p1) /\
      (force = true \/ paused self = false ->
       exists p2,
         Update steps force self1 p1 = Returns (tt, p2) /\
         history p2 = history p1 ++ [(a, Step (to_unsigned steps))] /\
         ((0 <= steps < 2 ^ 31)%Z -> to_unsigned steps = steps) /\
         cout p2 = cout p1) /\
      (force = false -> paused self = true ->
       Update steps force self1 p1 = Returns (tt, p1)).
Proof.
  intros to_boost_ptr steps force self p a w engine cm Hb Hw He Hcm Hlaw.
  destruct (SetWorld_runs to_boost_ptr self p a w engine cm Hb Hw He Hcm)
    as (p1 & Hset & Hw1 & _ & _ & _ & _).
  do 2 eexists. split; [exact Hset |]. split; [reflexivity |]. split.
  - intros Hgo.
    assert (Hgate : negb force && paused self = false).
    { destruct Hgo as [-> | ->]; [reflexivity | apply andb_false_r]. }
    rewrite (Update_runs steps force
               {| world := Some a;
                  enforceContactComputation := enforceContactComputation self;
                  paused := paused self |}
               p1 a _ eq_refl Hw1 Hgate).
    eexists. split; [reflexivity |]. cbn [history cout].
    unfold Update_calls. rewrite Hlaw. cbn [orb app]. split; [reflexivity |].
    split; [apply to_unsigned_of_int | apply app_nil_r].
  - intros -> Hp. unfold Update, IsPaused, mbind, mret. cbn [paused negb andb].
    now rewrite Hp.
Qed.

(** ** An adaptor without a world *)

(** X10.  Before a world is loaded or set ([world] is null), the flag
    methods, [GetWorld] and [GetPhysicsEngine] (which tests the pointer)
    return and change nothing; every other method follows the null pointer,
    except [Update(steps, false)] on a paused adaptor, which returns at once,
    and [PostWorldLoaded], which fails on its assertion. *)
Theorem methods_without_a_world :
  forall (Heap : Type) (to_std_ptr : WorldPtr -> WorldPtr)
         (to_std_ptr_PhysicsEngine :
            option (PhysicsEngine Vector3d JointWrench double) ->
            option (PhysicsEngine Vector3d JointWrench double))
         (minus : WorldState -> WorldState -> WorldState)
         (DEBUG : bool) (Equal : WorldState -> WorldState -> bool -> bool)
         (self : GazeboPhysicsWorld) (p : Proc),
    world self = None ->
    (GetPhysicsEngine to_std_ptr_PhysicsEngine self p = Returns (None, p) /\
     GetWorld to_std_ptr self p = Returns (to_std_ptr None, p) /\
     IsPaused self p = Returns (paused self, p) /\
     forall steps, paused self = true -> Update steps false self p = Returns (tt, p)) /\
    (GazeboPhysicsWorld_GetName self p = Aborts NullDereference /\
     GetWorldState self p = Aborts NullDereference /\
     (forall other, GetWorldStateDiff minus other self p = Aborts NullDereference) /\
     (forall state isDiff,
         SetWorldState DEBUG Equal state isDiff self p = Aborts NullDereference) /\
     (forall q, GetContactInfo_of (Vector3d := Vector3d) (JointWrench := JointWrench)
                                  (double := double) q self p = Aborts NullDereference) /\
     (forall q, GetNativeContacts_of (Vector3d := Vector3d) (JointWrench := JointWrench)
                                     (double := double) Heap q self p =
                Aborts NullDereference) /\
     (forall steps, Update steps true self p = Aborts NullDereference) /\
     (forall steps, paused self = false ->
                    Update steps false self p = Aborts NullDereference)) /\
    PostWorldLoaded self p =
      Aborts (AssertionFailed "World is null, must have been loaded!").
Proof.
  intros Heap to_std_ptr conv minus DEBUG Equal self p Hnull.
  split; [| split].
  - unfold GetPhysicsEngine, GetWorld, IsPaused. rewrite Hnull.
    repeat split. intros steps Hp. unfold Update, IsPaused, mbind, mret.
    now rewrite Hp.
  - unfold GazeboPhysicsWorld_GetName, GetWorldState, GetWorldStateDiff,
      GetWorldState, SetWorldState.
    repeat split.
    + now rewrite Hnull.
    + now rewrite Hnull.
    + intros other. unfold mbind. now rewrite Hnull.
    + intros state isDiff. unfold mbind. now rewrite Hnull.
    + intros [| m1 m2]; cbn [GetContactInfo_of]; unfold GetContactInfo,
        GetContactInfo_between, GetContactInfoHelper, mbind; now rewrite Hnull.
    + intros [| m1 m2]; cbn [GetNativeContacts_of]; unfold GetNativeContacts,
        GetNativeContacts_between, GetNativeContactsHelper, mbind; now rewrite Hnull.
    + intros steps. unfold Update, IsPaused, mbind, mret. cbn [negb andb].
      now rewrite Hnull.
    + intros steps Hp. unfold Update, IsPaused, mbind, mret. rewrite Hp, Hnull.
      reflexivity.
  - unfold PostWorldLoaded, mbind, GZ_ASSERT. now rewrite Hnull.
Qed.

(** ** Loading *)

Lemma SetWorld_self (to_boost_ptr : WorldPtr -> WorldPtr) (ptr : WorldPtr)
    (self self' : GazeboPhysicsWorld) (p p' : Proc) (r : RefResult) :
  SetWorld to_boost_ptr ptr self p = Returns ((r, self'), p') ->
  self' = {| world := to_boost_ptr ptr;
             enforceContactComputation := enforceContactComputation self;
             paused := paused self |}.
Proof.
  unfold SetWorld, SetEnforceContactsComputation, mbind, mret.
  cbn [world enforceContactComputation paused].
  destruct (read _ _ p) as [[engine p1] | f]; [| discriminate].
  destruct (GZ_ASSERT _ _ p1) as [[[] p2] | f]; [| discriminate].
  destruct (invoke _ _ p2) as [[[] p3] | f]; [| discriminate].
  destruct (PostWorldLoaded _ p3) as [[[] p4] | f]; [| discriminate].
  congruence.
Qed.

Section Loaders.

Variables to_boost_ptr to_std_ptr : WorldPtr -> WorldPtr.
Variables SDFElement float : Type.
Variable OnLoadWaitForNamespace : bool.
Variables OnLoadMaxWaitForNamespace OnLoadWaitForNamespaceSleep : float.
Variable helper_WaitForNamespace : string -> float -> float -> M WorldState W bool.

Lemma adopt_loaded_outcome (loader : M WorldState W WorldPtr)
    (self self' : GazeboPhysicsWorld) (p p' : Proc) (r : OpResult) :
  mbind loader
        (fun gzworld =>
           adopt_loaded to_boost_ptr to_std_ptr OnLoadWaitForNamespace
                        OnLoadMaxWaitForNamespace OnLoadWaitForNamespaceSleep
                        helper_WaitForNamespace gzworld self) p =
  Returns ((r, self'), p') ->
  load_outcome to_boost_ptr to_std_ptr loader self p r self' p'.
Proof.
  unfold mbind at 1, load_outcome.
  destruct (loader p) as [[gz p1] | f]; [| discriminate].
  intros Hrun. exists gz, p1. split; [reflexivity |].
  destruct gz as [g |]; cbn [adopt_loaded] in Hrun.
  - unfold mbind at 1 in Hrun.
    match type of Hrun with
    | match ?waiting with _ => _ end = _ =>
        destruct waiting as [[notLoaded p2] | f]; [| discriminate Hrun]
    end.
    destruct notLoaded.
    + injection Hrun as <- <- <-.
      split; [discriminate |]. split; [discriminate |].
      split; [reflexivity | discriminate].
    + unfold mbind, mret in Hrun.
      destruct (SetWorld _ _ _ p2) as [[[rr s2] p3] | f] eqn:Hset;
        [| discriminate Hrun].
      cbn [snd] in Hrun. injection Hrun as <- <- <-.
      apply SetWorld_self in Hset. subst s2.
      split; [discriminate |]. split; [discriminate |].
      split; [discriminate |]. intros _. now repeat split.
  - injection Hrun as <- <- <-.
    split; [discriminate |]. split; [now split |].
    split; [reflexivity | discriminate].
Qed.

(** X11.  The three loading methods keep the same promises.  After
    [LoadFromSDF], [LoadFromFile] or [LoadFromString] has returned: the
    result is FAILED or SUCCESS, never NOT_SUPPORTED; if the loader returned
    a null world the result is FAILED and the adaptor did nothing more; FAILED
    leaves the adaptor wrapping what it wrapped before; SUCCESS means the
    adaptor now wraps the world the loader returned, with its [paused] and
    [enforceContactComputation] members as they were. *)
Theorem loading_methods_outcome :
  forall (LoadWorldFromSDF : option SDFElement -> string -> M WorldState W WorldPtr)
         (LoadWorldFromFile LoadWorldFromSDFString :
            string -> string -> M WorldState W WorldPtr)
         (sdf : option SDFElement) (source worldname : string)
         (self self' : GazeboPhysicsWorld) (p p' : Proc) (r : OpResult),
    (LoadFromSDF to_boost_ptr to_std_ptr OnLoadWaitForNamespace
                 OnLoadMaxWaitForNamespace OnLoadWaitForNamespaceSleep
                 helper_WaitForNamespace LoadWorldFromSDF sdf worldname self p =
     Returns ((r, self'), p') ->
     load_outcome to_boost_ptr to_std_ptr (LoadWorldFromSDF sdf worldname)
                  self p r self' p') /\
    (LoadFromFile to_boost_ptr to_std_ptr OnLoadWaitForNamespace
                  OnLoadMaxWaitForNamespace OnLoadWaitForNamespaceSleep
                  helper_WaitForNamespace LoadWorldFromFile source worldname self p =
     Returns ((r, self'), p') ->
     load_outcome to_boost_ptr to_std_ptr (LoadWorldFromFile source worldname)
                  self p r self' p') /\
    (LoadFromString to_boost_ptr to_std_ptr OnLoadWaitForNamespace
                    OnLoadMaxWaitForNamespace OnLoadWaitForNamespaceSleep
                    helper_WaitForNamespace LoadWorldFromSDFString source worldname
                    self p =
     Returns ((r, self'), p') ->
     load_outcome to_boost_ptr to_std_ptr (LoadWorldFromSDFString source worldname)
                  self p r self' p').
Proof.
  intros. repeat split; apply adopt_loaded_outcome.
Qed.

End Loaders.

(** ** The list of models *)

Context {GM : GazeboModels W}.

Lemma to_int_small (u : Z) : (0 <= u < 2 ^ 31)%Z -> to_int u = u.
Proof.
  intros Hu. unfold to_int. rewrite Z.mod_small by lia.
  destruct (Z.ltb_spec u (2 ^ 31)); [reflexivity | lia].
Qed.

Lemma GetAllModelIDs_loop_returns (a : addr) (w : W) :
  forall (todo : nat) (i : Z) (names : list ModelID) (p : Proc),
    worlds p a = Some w ->
    (forall k, (k < todo)%nat -> ModelByIndex w (i + Z.of_nat k) <> None) ->
    GetAllModelIDs_loop (Some a) i todo names p =
    Returns (names ++ map (fun k => entity_name (ModelByIndex w (i + Z.of_nat k)))
                          (seq 0 todo),
             p).
Proof.
  induction todo as [| todo IH]; intros i names p Hw Hall.
  - cbn. now rewrite app_nil_r.
  - cbn [GetAllModelIDs_loop]. unfold mbind at 1. rewrite (read_world _ _ _ _ Hw).
    pose proof (Hall 0%nat (Nat.lt_0_succ todo)) as H0.
    rewrite Z.add_0_r in H0.
    destruct (ModelByIndex w i) as [m |] eqn:Hm; [| contradiction].
    cbn [arrow]. unfold mbind at 1. cbn [mret].
    rewrite IH; [| exact Hw |].
    + unfold push_back. rewrite <- app_assoc. cbn [app seq map].
      rewrite Z.add_0_r, Hm. cbn [entity_name]. do 4 f_equal.
      rewrite <- seq_shift, map_map. apply map_ext. intros k.
      now replace (i + 1 + Z.of_nat k)%Z with (i + Z.of_nat (S k))%Z by lia.
    + intros k Hk.
      replace (i + 1 + Z.of_nat k)%Z with (i + Z.of_nat (S k))%Z by lia.
      apply Hall. lia.
Qed.

(** X12.  On a loaded world with fewer than 2^31 models, each index below
    [ModelCount()] holding a model, [GetAllModelIDs] returns the names of the
    models in index order, exactly [ModelCount()] of them, and changes
    nothing; with no model it returns the empty vector. *)
Theorem GetAllModelIDs_lists_models_in_index_order :
  forall (self : GazeboPhysicsWorld) (p : Proc) (a : addr) (w : W),
    world self = Some a -> worlds p a = Some w ->
    (0 <= ModelCount w < 2 ^ 31)%Z ->
    (forall i, (0 <= i < ModelCount w)%Z -> ModelByIndex w i <> None) ->
    exists names,
      GetAllModelIDs self p = Returns (names, p) /\
      Z.of_nat (List.length names) = ModelCount w /\
      (forall i m, (0 <= i < ModelCount w)%Z -> ModelByIndex w i = Some m ->
                   nth_error names (Z.to_nat i) = Some (GetName m)) /\
      (ModelCount w = 0%Z -> names = []).
Proof.
  intros self p a w Ha Hw Hcount Hall.
  unfold GetAllModelIDs. rewrite Ha. unfold mbind at 1.
  rewrite (read_world _ _ _ _ Hw), (to_int_small _ Hcount).
  rewrite (GetAllModelIDs_loop_returns a w); [| exact Hw |].
  - eexists. split; [reflexivity |]. cbn [app]. split; [| split].
    + rewrite length_map, length_seq. lia.
    + intros i m Hi Hm. rewrite nth_error_map, nth_error_seq.
      destruct (Nat.ltb_spec (Z.to_nat i) (Z.to_nat (ModelCount w))) as [_ | Hge]; [| lia].
      cbn [option_map Nat.add]. rewrite Z.add_0_l, Z2Nat.id by lia.
      now rewrite Hm.
    + now intros ->.
  - intros k Hk. apply Hall. lia.
Qed.

(** ** Adding a model from a string *)

(** X13.  [AddModelFromString] by the outcome of the SDF check.  A negative
    check other than -2 gives FAILED after one line on [cerr], with neither
    the parser nor the loader called.  Otherwise the parser gets the string
    wrapped exactly when the check is -2; a null element gives FAILED
    after one line on [cerr], without the loader; else the loader is called on
    the adaptor's world with an empty model name, and the result is SUCCESS
    with the name of the loaded model, or FAILED with an empty [modelID] when
    the loader returns null. *)
Theorem AddModelFromString_by_check :
  forall (SDFElement : Type) (isProperSDFString : string -> Z)
         (wrapSDF : string -> string)
         (GetSDFElementFromString :
            string -> string -> string -> M WorldState W (option SDFElement))
         (LoadModelFromSDF :
            option SDFElement -> WorldPtr -> string -> M WorldState W (option Entity))
         (print_int : Z -> string)
         (str modelname : string) (self : GazeboPhysicsWorld) (p : Proc),
    let check := isProperSDFString str in
    let useStr := if (check =? -2)%Z then wrapSDF str else str in
    let add := AddModelFromString isProperSDFString wrapSDF GetSDFElementFromString
                                  LoadModelFromSDF print_int str modelname self in
    ((check < 0)%Z -> check <> (-2)%Z ->
     add p =
     Returns ({| opResult := FAILED; modelID := "" |},
              with_cerr p [("SDF is not proper so cannot load model from the string. "
                            ++ "Value: " ++ print_int check)%string])) /\
    ((0 <= check)%Z \/ check = (-2)%Z ->
     (forall p1,
         GetSDFElementFromString useStr "model" modelname p = Returns (None, p1) ->
         add p = Returns ({| opResult := FAILED; modelID := "" |},
                          with_cerr p1 [" Could not get SDF for model."])) /\
     (forall e p1 p2 loaded,
         GetSDFElementFromString useStr "model" modelname p = Returns (Some e, p1) ->
         LoadModelFromSDF (Some e) (world self) "" p1 = Returns (loaded, p2) ->
         add p =
         Returns (match loaded with
                  | Some m => {| opResult := SUCCESS; modelID := GetName m |}
                  | None => {| opResult := FAILED; modelID := "" |}
                  end, p2))).
Proof.
  intros SDFElement isProperSDFString wrapSDF parser loader print_int
         str modelname self p check useStr add.
  subst add. unfold AddModelFromString. fold check. split.
  - intros Hneg Hne.
    destruct (Z.ltb_spec check 0) as [_ | Hge]; [| lia].
    destruct (Z.eqb_spec check (-2)) as [Heq | _]; [contradiction |].
    reflexivity.
  - intros Hok.
    assert (Huse : (if (check <? 0)%Z
                    then if (check =? -2)%Z then Some (wrapSDF str) else None
                    else Some str) = Some useStr).
    { subst useStr.
      destruct (Z.ltb_spec check 0) as [Hlt | Hge];
        destruct (Z.eqb_spec check (-2)) as [Heq | Hne]; try reflexivity; lia. }
    rewrite Huse. split.
    + intros p1 Hparse. unfold mbind at 1. rewrite Hparse. reflexivity.
    + intros e p1 p2 loaded Hparse Hload. unfold mbind at 1. rewrite Hparse.
      unfold AddModelFromSDF, mbind. rewrite Hload. now destruct loaded.
Qed.

End MoreProperties.

(** * The further properties on the small simulator *)

(** X3 on the small simulator: the records in which "ground" is a model. *)
Lemma GetContactInfoHelper_one_model_example :
  exists p',
    GetContactInfoHelper (Some 1%positive) (Some "ground") None
                         (process_with (world_with false three_records)) =
    Returns ([info_of ball_on_ground; info_of (box_on_ground 2)], p').
Proof.
  exact (proj1 (GetContactInfoHelper_optional_models
                  "ground" (adaptor_on_1 false)
                  (process_with (world_with false three_records))
                  (world_with false three_records) (at_addresses 100 three_records)
                  (small_world_readable false three_records eq_refl))).
Defined.

(** X4 on the small simulator: the query left one line on [cerr] and nothing
    else. *)
Lemma GetContactInfo_read_only_example :
  exists res p',
    GetContactInfo_of AllModels (adaptor_on_1 false)
                      (process_with (world_with false three_records)) =
    Returns (res, p') /\
    history p' = [] /\ cout p' = [] /\ printOnce p' = true.
Proof.
  pose proof (GetContactInfo_of_returns
                AllModels (adaptor_on_1 false)
                (process_with (world_with false three_records))
                (world_with false three_records) (at_addresses 100 three_records)
                (small_world_readable false three_records eq_refl)) as Hrun.
  destruct (GetContactInfo_is_read_only _ _ _ _ _ Hrun)
    as (_ & Hhist & Hout & Honce & _).
  do 2 eexists. split; [exact Hrun |]. now repeat split.
Defined.

(** X5 on the small simulator: a record without its second model, behind a
    good one. *)
Lemma unset_record_example :
  exists msg,
    GetContactInfo_of (Between "ball" "ground") (adaptor_on_1 false)
                      (process_with (world_with false [ball_on_ground; record_without_model])) =
    Aborts (AssertionFailed msg) /\
    In msg record_assertions.
Proof.
  refine (proj1 (one_unset_record_fails_every_query
                  unit (Between "ball" "ground") (adaptor_on_1 false)
                  (process_with (world_with false [ball_on_ground; record_without_model]))
                  1%positive (world_with false [ball_on_ground; record_without_model])
                  {| GetContactManager :=
                       Some {| GetContacts :=
                                 at_addresses 100 [ball_on_ground; record_without_model] |} |}
                  (at_addresses 100 [ball_on_ground; record_without_model])
                  eq_refl eq_refl eq_refl eq_refl _)).
  cbn [at_addresses]. apply Exists_cons_tl, Exists_cons_hd. right. reflexivity.
Defined.


(** X7 on the small simulator: three records, two entries, one line. *)
Lemma entry_or_diagnostic_example :
  exists infos p1 natives lines,
    GetContactInfo_of AllModels (adaptor_on_1 false)
                      (process_with (world_with false three_records)) =
    Returns (infos, p1) /\
    GetNativeContacts_of unit AllModels (adaptor_on_1 false)
                         (process_with (world_with false three_records)) =
    Returns (natives, process_with (world_with false three_records)) /\
    cerr p1 = lines /\
    (List.length infos + List.length lines)%nat = 3%nat /\
    List.length natives = 3%nat.
Proof.
  destruct (every_wanted_record_is_entry_or_diagnostic
              unit AllModels (adaptor_on_1 false)
              (process_with (world_with false three_records))
              (world_with false three_records) (at_addresses 100 three_records)
              (small_world_readable false three_records eq_refl))
    as (infos & p1 & natives & lines & Hinfo & Hnative & Herr & Hsum & Hlen).
  exists infos, p1, natives, lines.
  split; [exact Hinfo |]. split; [exact Hnative |]. split; [exact Herr |].
  split; [now rewrite Hsum, Hlen | exact Hlen].
Defined.

(** X8 on the small simulator: the first [Update] on a running world prints
    the warning and clears the flag. *)
Lemma Update_warning_example :
  exists p',
    Update 3 false (adaptor_on_1 false) (process_with (world_with false [])) =
    Returns (tt, p') /\
    cout p' = [not_paused_warning] /\ printOnce p' = false.
Proof.
  pose proof (Update_runs 3 false (adaptor_on_1 false)
                (process_with (world_with false [])) 1%positive (world_with false [])
                eq_refl eq_refl eq_refl) as Hrun.
  destruct (Update_warns_at_most_once _ _ _ _ _ Hrun) as (_ & _ & [Hsame | Hwarn]).
  - destruct Hsame as [Hout _]. cbn in Hout. discriminate Hout.
  - eexists. split; [exact Hrun |]. destruct Hwarn as (Hout & _ & Honce).
    split; [exact Hout | exact Honce].
Defined.

(** X9 on the small simulator. *)
Lemma Update_after_SetWorld_example :
  exists self1 p1 p2,
    SetWorld (fun ptr => ptr) (Some 1%positive) (new_GazeboPhysicsWorld false)
             (process_with (world_with false [])) =
    Returns ((REFERENCED, self1), p1) /\
    Update 5 false self1 p1 = Returns (tt, p2) /\
    history p2 = history p1 ++ [(1%positive, Step 5)] /\
    cout p2 = cout p1.
Proof.
  destruct (Update_after_SetWorld
              (GW := SimpleWorld_GazeboWorld)
              (fun ptr => ptr) 5 false (new_GazeboPhysicsWorld false)
              (process_with (world_with false [])) 1%positive (world_with false [])
              {| GetContactManager := Some {| GetContacts := [] |} |}
              {| GetContacts := [] |}
              eq_refl eq_refl eq_refl eq_refl (fun _ => eq_refl))
    as (self1 & p1 & Hset & _ & Hgo & _).
  destruct (Hgo (or_intror eq_refl)) as (p2 & Hup & Hhist & _ & Hout).
  exists self1, p1, p2. now repeat split.
Defined.

(** X10 on a freshly constructed adaptor. *)
Lemma fresh_adaptor_example :
  GetPhysicsEngine (fun e => e) (new_GazeboPhysicsWorld true)
                   (process_with (world_with true [])) =
    Returns (None, process_with (world_with true [])) /\
  Update 1 false (new_GazeboPhysicsWorld true) (process_with (world_with true [])) =
    Aborts NullDereference.
Proof.
  destruct (methods_without_a_world
              (GW := SimpleWorld_GazeboWorld)
              unit (fun ptr => ptr) (fun e => e) Z.sub false (fun _ _ _ => true)
              (new_GazeboPhysicsWorld true) (process_with (world_with true [])) eq_refl)
    as ((Hengine & _) & (_ & _ & _ & _ & _ & _ & _ & Hupdate) & _).
  split; [exact Hengine | exact (Hupdate 1%Z eq_refl)].
Defined.

(** X11 on the small simulator, with a loader that hands out the world at
    address 1 and no waiting for the namespace. *)
Lemma LoadFromFile_example :
  exists self' p',
    LoadFromFile (fun ptr => ptr) (fun ptr => ptr) false tt tt
                 (fun _ _ _ => mret true) (fun _ _ => mret (Some 1%positive))
                 "cube_dart.world" "" (new_GazeboPhysicsWorld false)
                 (process_with (world_with false [])) =
    Returns ((SUCCESS, self'), p') /\
    world self' = Some 1%positive /\ paused self' = false.
Proof.
  destruct (LoadFromFile (fun ptr => ptr) (fun ptr => ptr) false tt tt
                         (fun _ _ _ => mret true) (fun _ _ => mret (Some 1%positive))
                         "cube_dart.world" "" (new_GazeboPhysicsWorld false)
                         (process_with (world_with false [])))
    as [[[r self'] p'] | f] eqn:Hrun.
  - pose proof Hrun as Hvalue. cbv in Hvalue. injection Hvalue as Hr _ _.
    destruct (proj1 (proj2 (loading_methods_outcome
                              (fun ptr => ptr) (fun ptr => ptr) unit unit false tt tt
                              (fun _ _ _ => mret true)
                              (fun _ _ => mret None)
                              (fun _ _ => mret (Some 1%positive))
                              (fun _ _ => mret None)
                              None "cube_dart.world" "" (new_GazeboPhysicsWorld false)
                              self' (process_with (world_with false [])) p' r))
                    Hrun)
      as (gz & p1 & Hloader & _ & _ & _ & Hsuccess).
    injection Hloader as <- _.
    destruct (Hsuccess (eq_sym Hr)) as (_ & Hworld & Hpaused & _).
    exists self', p'. rewrite <- Hr. now repeat split.
  - cbv in Hrun. discriminate Hrun.
Defined.

(** X12 on a world with two models. *)
Lemma GetAllModelIDs_example :
  GetAllModelIDs (adaptor_on_1 false) (listed_process ["box"; "ground"]) =
  Returns (["box"; "ground"], listed_process ["box"; "ground"]).
Proof.
  destruct (GetAllModelIDs_lists_models_in_index_order
              (WorldState := Z)
              (adaptor_on_1 false) (listed_process ["box"; "ground"]) 1%positive
              {| lw_models := [ {| GetName := "box" |}; {| GetName := "ground" |} ] |}
              eq_refl eq_refl)
    as (names & Hrun & Hlen & Hnth & _).
  - cbn. lia.
  - intros i Hi. cbn in Hi.
    assert (Hcases : i = 0%Z \/ i = 1%Z) by lia.
    destruct Hcases as [-> | ->]; discriminate.
  - rewrite Hrun. f_equal. f_equal.
    pose proof (Hnth 0%Z _ ltac:(cbn; lia) eq_refl) as H0.
    pose proof (Hnth 1%Z _ ltac:(cbn; lia) eq_refl) as H1.
    cbn in Hlen, H0, H1.
    destruct names as [| n0 [| n1 [| n2 rest]]]; cbn in Hlen, H0, H1; try lia.
    change (Some n1 = Some "ground") in H1.
    injection H0 as ->. injection H1 as ->. reflexivity.
Defined.

(** X13 with a check that answers -2 for every string: the parser gets the
    wrapped string. *)
Lemma AddModelFromString_example :
  AddModelFromString (fun _ => (-2)%Z) (fun str => ("<sdf>" ++ str ++ "</sdf>")%string)
                     (fun useStr _ _ =>
                        mret (if useStr =? "<sdf><model/></sdf>" then Some tt else None))
                     (fun _ _ _ => mret (Some {| GetName := "unit_box" |}))
                     (fun _ => "-2") "<model/>" "box" (adaptor_on_1 false)
                     (process_with (world_with false [])) =
  Returns ({| opResult := SUCCESS; modelID := "unit_box" |},
           process_with (world_with false [])).
Proof.
  exact (proj2 (proj2 (AddModelFromString_by_check
                         unit (fun _ => (-2)%Z) (fun str => ("<sdf>" ++ str ++ "</sdf>")%string)
                         (fun useStr _ _ =>
                            mret (if useStr =? "<sdf><model/></sdf>"
                                  then Some tt else None))
                         (fun _ _ _ => mret (Some {| GetName := "unit_box" |}))
                         (fun _ => "-2") "<model/>" "box" (adaptor_on_1 false)
                         (process_with (world_with false [])))
                      (or_intror eq_refl))
               tt _ _ (Some {| GetName := "unit_box" |}) eq_refl eq_refl).
Defined.

(** X14 on the small simulator: the line about the record without points,
    twice. *)
Lemma GetContactInfo_again_example :
  exists res p1 p2,
    GetContactInfo_of AllModels (adaptor_on_1 false)
                      (process_with (world_with false three_records)) =
    Returns (res, p1) /\
    GetContactInfo_of AllModels (adaptor_on_1 false) p1 = Returns (res, p2) /\
    List.length (cerr p1) = 1%nat /\ List.length (cerr p2) = 2%nat.
Proof.
  destruct (GetContactInfo_again_repeats_diagnostics
              AllModels (adaptor_on_1 false)
              (process_with (world_with false three_records))
              (world_with false three_records) (at_addresses 100 three_records)
              (small_world_readable false three_records eq_refl))
    as (res & p1 & p2 & lines & Hfirst & Hsecond & Herr1 & Herr2 & Hlen).
  exists res, p1, p2. split; [exact Hfirst |]. split; [exact Hsecond |].
  rewrite Herr1, Herr2, !length_app, Hlen. split; reflexivity.
Defined.
